(** * Invoice retriever: a shallow embedding of [app.py]

    The job authenticates against the mail and storage services, lists the
    messages matching a fixed query, and for every PDF-named part of every
    message downloads the attachment, writes it under [invoices/], uploads
    it and removes the local copy.

    Everything outside the process (the two services, the OAuth flow, the
    base64 codec, the operating system's refusal to open, write or remove a
    file)
    is an oracle: a function from the calls made so far and the present call
    to either a raised exception or a returned value.  The program itself is
    written in a state-and-exception monad over a world made of the local
    file system, the log and the trace of external calls.

    Only exceptions deriving from Python's [Exception] are modelled, since
    these are the ones the handlers of [app.py] catch. *)

From Stdlib Require Import String Ascii ZArith List Bool Lia.
From Stdlib Require Import Numbers.DecimalString.
From stdpp Require Import base option list gmap strings.

Set Warnings "-register-all".
Local Open Scope string_scope.
Local Open Scope Z_scope.
Local Open Scope list_scope.
Local Open Scope stdpp_scope.

(** ** Python values *)

Abbreviation bytes := (list Byte.byte).

(** The JSON-shaped values the client libraries hand to the program.  A
    dictionary is kept as an association list whose first binding of a key
    is the visible one; a parsed JSON object binds each key once. *)
Inductive pyval : Type :=
| PNone
| PBool (b : bool)
| PInt (z : Z)
| PStr (s : string)
| PList (l : list pyval)
| PDict (d : list (string * pyval)).

Inductive exn : Type :=
| KeyError (key : string)
| TypeError (msg : string)
| AttributeError (msg : string)
| FileNotFoundError (path : string)
| OSError (msg : string)
| HttpError (msg : string)
| OtherError (msg : string).

Abbreviation result A := (exn + A)%type.

(** ** Strings *)

Module Str.

Definition lower_ascii (c : ascii) : ascii :=
  let n := nat_of_ascii c in
  if ((65 <=? n) && (n <=? 90))%nat then ascii_of_nat (n + 32) else c.

(** [s.lower()].  Strings are sequences of UTF-8 bytes; only the ASCII
    letters are folded, which is all that a comparison with an ASCII
    suffix can observe. *)
Fixpoint lower (s : string) : string :=
  match s with
  | EmptyString => EmptyString
  | String c s' => String (lower_ascii c) (lower s')
  end.

(** [s.endswith(suffix)] *)
Definition endswith (s suffix : string) : bool :=
  let n := String.length s in
  let m := String.length suffix in
  if (m <=? n)%nat then String.eqb (substring (n - m) m s) suffix else false.

(** [s.replace(old, new)] for one-character [old] and [new]. *)
Fixpoint replace (old new : ascii) (s : string) : string :=
  match s with
  | EmptyString => EmptyString
  | String c s' => String (if Ascii.eqb c old then new else c) (replace old new s')
  end.

Definition is_space (c : ascii) : bool :=
  let n := nat_of_ascii c in
  ((9 <=? n) && (n <=? 13) || (28 <=? n) && (n <=? 32))%nat.

Fixpoint lstrip (s : string) : string :=
  match s with
  | String c s' => if is_space c then lstrip s' else s
  | EmptyString => EmptyString
  end.

Fixpoint rstrip (s : string) : string :=
  match s with
  | EmptyString => EmptyString
  | String c s' =>
      match rstrip s' with
      | EmptyString => if is_space c then EmptyString else String c EmptyString
      | r => String c r
      end
  end.

(** [s.strip()] *)
Definition strip (s : string) : string := rstrip (lstrip s).

(** [sep.join(l)] *)
Fixpoint join (sep : string) (l : list string) : string :=
  match l with
  | [] => EmptyString
  | [x] => x
  | x :: l' => x +:+ sep +:+ join sep l'
  end.

(** [s.split(sep)] for a one-character separator; [cur] is the piece
    being read, reversed. *)
Fixpoint split_aux (sep : ascii) (cur : list ascii) (s : string) : list string :=
  match s with
  | EmptyString => [string_of_list_ascii (rev cur)]
  | String c s' =>
      if Ascii.eqb c sep
      then string_of_list_ascii (rev cur) :: split_aux sep [] s'
      else split_aux sep (c :: cur) s'
  end.

Definition split (sep : ascii) (s : string) : list string := split_aux sep [] s.

(** [s.split()] on a text whose only blanks are spaces, tabs and line
    breaks: the maximal runs of other characters. *)
Definition words (s : string) : list string :=
  filter (fun w => w ≠ EmptyString) (split " " (replace "009" " " (replace "010" " " s))).

Definition nl : string := String "010" EmptyString.

Definition hex_digit (n : nat) : ascii :=
  ascii_of_nat (if (n <? 10)%nat then 48 + n else 87 + n).

Definition of_Z (z : Z) : string := NilEmpty.string_of_int (Z.to_int z).

End Str.

Module Py.

Definition type_name (v : pyval) : string :=
  match v with
  | PNone => "NoneType"
  | PBool _ => "bool"
  | PInt _ => "int"
  | PStr _ => "str"
  | PList _ => "list"
  | PDict _ => "dict"
  end.

Fixpoint assoc (k : string) (d : list (string * pyval)) : option pyval :=
  match d with
  | [] => None
  | (k', v) :: d' => if String.eqb k k' then Some v else assoc k d'
  end.

(** [bool(v)] *)
Definition truthy (v : pyval) : bool :=
  match v with
  | PNone => false
  | PBool b => b
  | PInt z => negb (z =? 0)
  | PStr s => negb (String.eqb s EmptyString)
  | PList l => match l with [] => false | _ => true end
  | PDict d => match d with [] => false | _ => true end
  end.

(** [sub in s] on two strings. *)
Fixpoint is_substring (sub s : string) : bool :=
  String.prefix sub s
  || match s with
     | EmptyString => false
     | String _ s' => is_substring sub s'
     end.

Definition is_str (k : string) (v : pyval) : bool :=
  match v with
  | PStr s => String.eqb k s
  | _ => false
  end.

(** [k in v] for a string [k]. *)
Definition contains (k : string) (v : pyval) : result bool :=
  match v with
  | PDict d => inr (bool_decide (is_Some (assoc k d)))
  | PStr s => inr (is_substring k s)
  | PList l => inr (existsb (is_str k) l)
  | _ => inl (TypeError ("argument of type '" +:+ type_name v +:+ "' is not iterable"))
  end.

(** [v[k]] for a string [k]. *)
Definition getitem (v : pyval) (k : string) : result pyval :=
  match v with
  | PDict d =>
      match assoc k d with
      | Some x => inr x
      | None => inl (KeyError k)
      end
  | PStr _ => inl (TypeError "string indices must be integers")
  | PList _ => inl (TypeError "list indices must be integers or slices, not str")
  | _ => inl (TypeError ("'" +:+ type_name v +:+ "' object is not subscriptable"))
  end.

(** [v.get(k, default)] *)
Definition get (v : pyval) (k : string) (default : pyval) : result pyval :=
  match v with
  | PDict d => inr (match assoc k d with Some x => x | None => default end)
  | _ => inl (AttributeError ("'" +:+ type_name v +:+ "' object has no attribute 'get'"))
  end.


Definition dquote : ascii := "034"%char.

Definition hex_escape (n : nat) : string :=
  String "\" (String "x" (String (Str.hex_digit (n / 16))
                            (String (Str.hex_digit (n mod 16)) EmptyString))).

Definition escape_char (quote : ascii) (c : ascii) : string :=
  let n := nat_of_ascii c in
  if Ascii.eqb c "\" then "\\"
  else if Ascii.eqb c quote then String "\" (String c EmptyString)
  else if (n =? 9)%nat then "\t"
  else if (n =? 10)%nat then "\n"
  else if (n =? 13)%nat then "\r"
  else if ((n <? 32) || (n =? 127))%nat then hex_escape n
  else String c EmptyString.

(** The characters U+0080 to U+00A0 and U+00AD are not printable; in UTF-8
    they are the byte 194 followed by the byte of the same number. *)
Definition latin1_unprintable (lead next : ascii) : bool :=
  let n := nat_of_ascii next in
  Ascii.eqb lead "194" && ((128 <=? n) && (n <=? 160) || (n =? 173))%nat.

Fixpoint escape (quote : ascii) (s : string) : string :=
  match s with
  | EmptyString => EmptyString
  | String c s' =>
      match s' with
      | String d s'' =>
          if latin1_unprintable c d
          then hex_escape (nat_of_ascii d) +:+ escape quote s''
          else escape_char quote c +:+ escape quote s'
      | EmptyString => escape_char quote c
      end
  end.

(** [repr(s)] of a string: single quotes unless the string holds a single
    quote and no double quote.  Characters up to U+00FF are escaped as
    Python escapes them; characters beyond are rendered as they are, which
    is what Python does with those its character database holds
    printable. *)
Definition repr_str (s : string) : string :=
  let quote : ascii :=
    if is_substring "'" s && negb (is_substring (String dquote EmptyString) s) then dquote else "'"%char in
  String quote (escape quote s) +:+ String quote EmptyString.

Fixpoint repr (v : pyval) : string :=
  match v with
  | PNone => "None"
  | PBool true => "True"
  | PBool false => "False"
  | PInt z => Str.of_Z z
  | PStr s => repr_str s
  | PList l => "[" +:+ Str.join ", " (map repr l) +:+ "]"
  | PDict d =>
      "{" +:+ Str.join ", " (map (fun kv => repr_str (fst kv) +:+ ": " +:+ repr (snd kv)) d) +:+ "}"
  end.

(** [str(v)], which is what an f-string substitutes. *)
Definition str (v : pyval) : string :=
  match v with
  | PStr s => s
  | _ => repr v
  end.

(** The items a [for] loop over [v] visits.  A string yields its
    characters and a dictionary its keys. *)
Definition iter (v : pyval) : result (list pyval) :=
  match v with
  | PList l => inr l
  | PStr s => inr (map (fun c => PStr (String c EmptyString)) (list_ascii_of_string s))
  | PDict d => inr (map (fun kv => PStr (fst kv)) d)
  | _ => inl (TypeError ("'" +:+ type_name v +:+ "' object is not iterable"))
  end.

(** [v.lower()] *)
Definition lower (v : pyval) : result string :=
  match v with
  | PStr s => inr (Str.lower s)
  | _ => inl (AttributeError ("'" +:+ type_name v +:+ "' object has no attribute 'lower'"))
  end.

(** [str(e)] of an exception. *)
Definition exn_str (e : exn) : string :=
  match e with
  | KeyError k => repr_str k
  | TypeError m | AttributeError m | OSError m | HttpError m | OtherError m => m
  | FileNotFoundError path =>
      "[Errno 2] No such file or directory: " +:+ repr_str path
  end.

End Py.

(** ** The local file system

    Files are keyed by the components of their path relative to the working
    directory, after the empty and [.] components are dropped and every
    [..] has cancelled the component before it, so that two spellings of one
    path name one file.  Every path the program builds starts with
    [invoices/] and is therefore relative. *)

Module Path.

(** [acc] holds the components kept so far, innermost first. *)
Fixpoint normalize (acc : list string) (comps : list string) : list string :=
  match comps with
  | [] => rev acc
  | c :: comps' =>
      if String.eqb c EmptyString || String.eqb c "." then normalize acc comps'
      else if String.eqb c ".." then
        match acc with
        | [] => normalize [c] comps'
        | a :: acc' =>
            if String.eqb a ".." then normalize (c :: acc) comps'
            else normalize acc' comps'
        end
      else normalize (c :: acc) comps'
  end.

Definition resolve (path : string) : list string :=
  normalize [] (Str.split "/" path).

(** The file lies in directory [dir] of the working directory or below. *)
Definition inside (dir : string) (key : list string) : bool :=
  match key with
  | d :: _ :: _ => String.eqb d dir
  | _ => false
  end.

End Path.

Abbreviation filesystem := (gmap (list string) bytes).

(** The files of the scratch directory. *)
Definition scratch_files (fs : filesystem) : filesystem :=
  filter (fun kv => Path.inside "invoices" (fst kv) = true) fs.

(** ** External calls *)

Record Media := {
  media_filename : string;
  media_mimetype : string;
  media_resumable : bool;
  media_content : bytes
}.

Inductive request : Type :=
| CredsRefresh
| FlowFromClientSecretsFile (file : string) (scopes : list string)
| FlowRunLocalServer (port : Z)
| Build (service_name version : string)
| MessagesList (userId q : string)
| MessagesGet (userId : string) (id : pyval)
| AttachmentsGet (userId : string) (messageId id : pyval)
| FilesCreate (name : pyval) (parents : list (option string)) (media_body : Media)
              (fields : string)
| MediaFileUpload (path mimetype : string) (resumable : bool)
| Makedirs (path : string) (exist_ok : bool)
| OpenWb (path : string)
| FileWrite (path : string) (data : bytes)
| OsRemove (path : string).

(** A call together with what it raised or returned. *)
Definition event : Type := request * result pyval.

Record Env := {
  (** what a call raises or returns, given the calls made before it *)
  respond : list event -> request -> result pyval;
  (** how many bytes of [data] have reached the file at [path] when the
      write of [data] raises, given the calls made before it *)
  partial_write : list event -> string -> bytes -> nat;
  (** [base64.urlsafe_b64decode] *)
  urlsafe_b64decode : pyval -> result bytes;
  (** [os.getenv('DRIVE_FOLDER_ID')] at import time *)
  DRIVE_FOLDER_ID : option string
}.

Inductive level := INFO | ERROR.

Record World := {
  fs : filesystem;
  log : list (level * string);
  trace : list event
}.

Definition set_fs (f : filesystem -> filesystem) (w : World) : World :=
  {| fs := f (fs w); log := log w; trace := trace w |}.

Definition add_log (entry : level * string) (w : World) : World :=
  {| fs := fs w; log := log w ++ [entry]; trace := trace w |}.

Definition add_event (ev : event) (w : World) : World :=
  {| fs := fs w; log := log w; trace := trace w ++ [ev] |}.

(** ** The monad of the program *)

Definition M (A : Type) : Type := World -> result A * World.

Definition ret {A} (a : A) : M A := fun w => (inr a, w).

Definition raise {A} (e : exn) : M A := fun w => (inl e, w).

Definition bind {A B} (m : M A) (k : A -> M B) : M B :=
  fun w =>
    match m w with
    | (inr a, w') => k a w'
    | (inl e, w') => (inl e, w')
    end.

(** [try: body / except Exception as e: handler e] *)
Definition try_except {A} (body : M A) (handler : exn -> M A) : M A :=
  fun w =>
    match body w with
    | (inr a, w') => (inr a, w')
    | (inl e, w') => handler e w'
    end.

(** An expression that raises or yields a value without touching the world. *)
Definition lift {A} (r : result A) : M A := fun w => (r, w).

Declare Scope monad_scope.
Delimit Scope monad_scope with monad.
Notation "x <- m ;; k" := (bind m (fun x => k))
  (at level 100, m at next level, right associativity) : monad_scope.
Notation "m ;; k" := (bind m (fun _ => k))
  (at level 100, right associativity) : monad_scope.
Local Open Scope monad_scope.

(** [for x in items: body x] *)
Fixpoint for_each (items : list pyval) (body : pyval -> M unit) : M unit :=
  match items with
  | [] => ret tt
  | x :: items' => body x ;; for_each items' body
  end.

Definition exec {A} (m : M A) (w : World) : World := snd (m w).

Definition outcome {A} (m : M A) (w : World) : result A := fst (m w).

(** ** The program *)

(** A handle returned by [build]. *)
Record service := Service { service_name : string; service_version : string }.

(** The fields of a credentials object that [get_google_service] reads. *)
Record Credentials := {
  valid : bool;
  expired : bool;
  refresh_token : pyval
}.

Definition SCOPES : list string :=
  [ "https://www.googleapis.com/auth/gmail.readonly";
    "https://www.googleapis.com/auth/drive.file" ].

(** The lines of the triple-quoted literal of [process_emails]: it opens
    with a line break and closes after the indentation of its last line. *)
Definition query_lines : list string :=
  [ EmptyString;
    "            newer:1d";
    "            AND";
    "            (from:billing@render.com OR ";
    "             from:support@netlify.com OR";
    "             from:billing@netlify.com OR";
    "             from:payments-noreply@google.com OR";
    "             from:billing@webflow.com OR";
    "             from:billing@box.com OR";
    "             from:billing@typeform.com OR";
    "             from:no-reply@business.amazon.com OR";
    "             from:*@anthemwelderssupply.com)";
    "            AND ";
    "            (subject:invoice OR subject:receipt OR subject:bill OR subject:payment)";
    "            AND ";
    "            has:attachment";
    "        " ].

Definition query_literal : string := Str.join Str.nl query_lines.

(** [query_literal.replace('\n', ' ').strip()] *)
Definition query : string := Str.strip (Str.replace "010" " " query_literal).

Section Program.

Variable env : Env.

(** A call into a client library or the operating system: the oracle
    answers from the trace so far, and the call is appended to it. *)
Definition call (r : request) : M pyval :=
  fun w =>
    let answer := respond env (trace w) r in
    (answer, add_event (r, answer) w).

Definition logger_info (msg : string) : M unit :=
  fun w => (inr tt, add_log (INFO, msg) w).

Definition logger_error (msg : string) : M unit :=
  fun w => (inr tt, add_log (ERROR, msg) w).

(** [os.makedirs(path, exist_ok=...)]; directories are not tracked. *)
Definition os_makedirs (path : string) (exist_ok : bool) : M unit :=
  call (Makedirs path exist_ok) ;; ret tt.

(** [open(path, 'wb')]: creates or truncates the file unless refused. *)
Definition open_wb (path : string) : M unit :=
  call (OpenWb path) ;;
  fun w => (inr tt, set_fs (insert (Path.resolve path) []) w).

(** [f.write(data)] on a file just opened at [path], up to the closing of
    the file at the end of the [with] block.  When it goes through the
    file holds [data]; when it raises the file holds the bytes that had
    been accepted, a prefix of [data]. *)
Definition file_write (path : string) (data : bytes) : M unit :=
  fun w =>
    match call (FileWrite path data) w with
    | (inr _, w') => (inr tt, set_fs (insert (Path.resolve path) data) w')
    | (inl e, w') =>
        (inl e,
         set_fs (insert (Path.resolve path)
                   (take (partial_write env (trace w) path data) data)) w')
    end.

(** [os.remove(path)]: raises when there is no such file, and otherwise
    when the system refuses; the file is gone only when it returns. *)
Definition os_remove (path : string) : M unit :=
  fun w =>
    match fs w !! Path.resolve path with
    | Some _ =>
        (call (OsRemove path) ;;
         fun w' => (inr tt, set_fs (delete (Path.resolve path)) w')) w
    | None =>
        (inl (FileNotFoundError path),
         add_event (OsRemove path, inl (FileNotFoundError path)) w)
    end.

(** [MediaFileUpload(path, mimetype=..., resumable=...)] opens the file
    for reading. *)
Definition media_file_upload (path mimetype : string) (resumable : bool) : M Media :=
  fun w =>
    match fs w !! Path.resolve path with
    | Some content =>
        (call (MediaFileUpload path mimetype resumable) ;;
         ret {| media_filename := path; media_mimetype := mimetype;
                media_resumable := resumable; media_content := content |}) w
    | None =>
        (inl (FileNotFoundError path),
         add_event (MediaFileUpload path mimetype resumable,
                    inl (FileNotFoundError path)) w)
    end.

Definition get_google_service (service_name version : string)
    (creds : option Credentials) : M service :=
  (if match creds with None => true | Some c => negb (valid c) end then
     if match creds with
        | None => false
        | Some c => expired c && Py.truthy (refresh_token c)
        end
     then call CredsRefresh ;; ret tt
     else
       call (FlowFromClientSecretsFile "credentials.json" SCOPES) ;;
       call (FlowRunLocalServer 0) ;;
       ret tt
   else ret tt) ;;
  call (Build service_name version) ;;
  ret (Service service_name version).

Definition upload_to_drive (drive_service : service) (filename : pyval) : M unit :=
  try_except
    (media <- media_file_upload ("invoices/" +:+ Py.str filename) "application/pdf" true ;;
     file <- call (FilesCreate filename [DRIVE_FOLDER_ID env] media "id") ;;
     id <- lift (Py.get file "id" PNone) ;;
     logger_info ("File " +:+ Py.str filename +:+ " uploaded successfully, ID: "
                  +:+ Py.str id))
    (fun e => logger_error ("Error uploading to Drive: " +:+ Py.exn_str e)).

(** [k1 in v and k2 in v[k1]] *)
Definition has_nested (v : pyval) (k1 k2 : string) : M bool :=
  present <- lift (Py.contains k1 v) ;;
  if present : bool then
    inner <- lift (Py.getitem v k1) ;;
    lift (Py.contains k2 inner)
  else ret false.

Definition process_attachment (gmail_service drive_service : service)
    (msg_id part : pyval) : M unit :=
  try_except
    (cond <- has_nested part "body" "attachmentId" ;;
     if cond : bool then
       body <- lift (Py.getitem part "body") ;;
       attachment_id <- lift (Py.getitem body "attachmentId") ;;
       attachment <- call (AttachmentsGet "me" msg_id attachment_id) ;;
       data <- lift (Py.getitem attachment "data") ;;
       file_data <- lift (urlsafe_b64decode env data) ;;
       filename <- lift (Py.getitem part "filename") ;;
       open_wb ("invoices/" +:+ Py.str filename) ;;
       file_write ("invoices/" +:+ Py.str filename) file_data ;;
       upload_to_drive drive_service filename ;;
       os_remove ("invoices/" +:+ Py.str filename)
     else ret tt)
    (fun e => logger_error ("Error processing attachment: " +:+ Py.exn_str e)).

(** [part.get('filename') and part['filename'].lower().endswith('.pdf')],
    taken as a condition. *)
Definition is_pdf_part (part : pyval) : M bool :=
  name <- lift (Py.get part "filename" PNone) ;;
  if Py.truthy name then
    filename <- lift (Py.getitem part "filename") ;;
    lowered <- lift (Py.lower filename) ;;
    ret (Str.endswith lowered ".pdf")
  else ret false.

(** The body of the loop of [process_single_email] over the parts. *)
Definition each_part (gmail_service drive_service : service) (msg_id part : pyval)
    : M unit :=
  selected <- is_pdf_part part ;;
  if selected : bool
  then process_attachment gmail_service drive_service msg_id part
  else ret tt.

Definition process_single_email (gmail_service drive_service : service)
    (msg_id : pyval) : M unit :=
  try_except
    (message <- call (MessagesGet "me" msg_id) ;;
     cond <- has_nested message "payload" "parts" ;;
     if cond : bool then
       payload <- lift (Py.getitem message "payload") ;;
       parts <- lift (Py.getitem payload "parts") ;;
       items <- lift (Py.iter parts) ;;
       for_each items (each_part gmail_service drive_service msg_id)
     else ret tt)
    (fun e => logger_error ("Error processing message " +:+ Py.str msg_id +:+ ": "
                            +:+ Py.exn_str e)).

(** The body of the loop of [process_emails] over the messages. *)
Definition each_message (gmail_service drive_service : service) (message : pyval)
    : M unit :=
  id <- lift (Py.getitem message "id") ;;
  process_single_email gmail_service drive_service id.

Definition process_emails : M unit :=
  try_except
    (gmail_service <- get_google_service "gmail" "v1" None ;;
     drive_service <- get_google_service "drive" "v3" None ;;
     results <- call (MessagesList "me" query) ;;
     messages <- lift (Py.get results "messages" (PList [])) ;;
     items <- lift (Py.iter messages) ;;
     for_each items (each_message gmail_service drive_service))
    (fun e => logger_error ("Error processing emails: " +:+ Py.exn_str e)).

Definition main : M unit :=
  logger_info "Starting invoice processing job" ;;
  os_makedirs "invoices" true ;;
  process_emails ;;
  logger_info "Completed invoice processing job".

End Program.

(** ** Observations on a run *)

(** The calls made between world [w] and a later world [w']. *)
Definition new_events (w w' : World) : list event :=
  drop (length (trace w)) (trace w').

(** The log entries added between [w] and [w']. *)
Definition new_log (w w' : World) : list (level * string) :=
  drop (length (log w)) (log w').

Definition is_download (ev : event) : bool :=
  match fst ev with
  | AttachmentsGet _ _ _ => true
  | _ => false
  end.

(** The local path a call touches, if it touches one. *)
Definition touched_path (ev : event) : option string :=
  match fst ev with
  | OpenWb path | FileWrite path _ | OsRemove path | MediaFileUpload path _ _ => Some path
  | FilesCreate _ _ media _ => Some (media_filename media)
  | _ => None
  end.

Definition failed (ev : event) : option exn :=
  match snd ev with
  | inl e => Some e
  | inr _ => None
  end.

(** ** Shapes of messages *)

(** A part carrying a file name and an attachment identifier. *)
Definition part_of (filename : string) (attachment_id : pyval) : pyval :=
  PDict [("filename", PStr filename);
         ("body", PDict [("attachmentId", attachment_id)])].

(** A message whose payload lists [parts]. *)
Definition message_of_parts (parts : list pyval) : pyval :=
  PDict [("payload", PDict [("parts", PList parts)])].

(** ** Sample environments, used to run the program on concrete inputs *)

Module Sample.

(** A stand-in codec: the bytes of the text itself. *)
Definition decode (v : pyval) : result bytes :=
  match v with
  | PStr s => inr (list_byte_of_string s)
  | _ => inl (TypeError "argument should be a bytes-like object or ASCII string")
  end.

Definition pdf_part (filename attachment_id : string) : pyval :=
  part_of filename (PStr attachment_id).

Definition message_with (parts : list pyval) : pyval := message_of_parts parts.

Definition inbox : pyval :=
  PDict [("messages",
          PList [PDict [("id", PStr "m1")]; PDict [("id", PStr "m2")];
                 PDict [("id", PStr "m3")]])].

Definition mailbox (id : pyval) : result pyval :=
  match id with
  | PStr "m1" => inr (message_with [pdf_part "january.pdf" "a1"])
  | PStr "m2" => inr (message_with [pdf_part "february.PDF" "a2"])
  | PStr "m3" => inr (message_with [pdf_part "march.pdf" "a3"])
  | PStr "m5" => inr (message_with [pdf_part "notes.txt" "a0"; pdf_part "summary.pdf" "a5"])
  | PStr "m4" => inr (PDict [("payload", PDict [("mimeType", PStr "text/plain")])])
  | _ => inl (HttpError "404 Requested entity was not found.")
  end.

(** The services answer every call; [fail] names the calls that raise. *)
Definition answer (fail : request -> option exn) (h : list event) (r : request)
    : result pyval :=
  match fail r with
  | Some e => inl e
  | None =>
      match r with
      | MessagesList _ _ => inr inbox
      | MessagesGet _ id => mailbox id
      | AttachmentsGet _ _ (PStr a) => inr (PDict [("data", PStr ("%PDF " +:+ a))])
      | FilesCreate name _ _ _ => inr (PDict [("id", PStr ("drive:" +:+ Py.str name))])
      | _ => inr PNone
      end
  end.

(** A write that raises has let four bytes through. *)
Definition env (fail : request -> option exn) : Env :=
  {| respond := answer fail;
     partial_write := fun _ _ _ => 4%nat;
     urlsafe_b64decode := decode;
     DRIVE_FOLDER_ID := Some "folder-id" |}.

Definition no_failure (r : request) : option exn := None.

Definition upload_fails (r : request) : option exn :=
  match r with
  | FilesCreate _ _ _ _ => Some (HttpError "403 insufficient permissions")
  | _ => None
  end.

Definition second_download_fails (r : request) : option exn :=
  match r with
  | AttachmentsGet _ (PStr "m2") _ => Some (HttpError "500 backend error")
  | _ => None
  end.

Definition makedirs_fails (r : request) : option exn :=
  match r with
  | Makedirs _ _ => Some (OSError "[Errno 17] File exists: 'invoices'")
  | _ => None
  end.

Definition auth_fails (r : request) : option exn :=
  match r with
  | FlowFromClientSecretsFile _ _ =>
      Some (FileNotFoundError "credentials.json")
  | _ => None
  end.

Definition write_fails (r : request) : option exn :=
  match r with
  | FileWrite _ _ => Some (OSError "[Errno 28] No space left on device")
  | _ => None
  end.

Definition open_fails (r : request) : option exn :=
  match r with
  | OpenWb _ => Some (OSError "[Errno 13] Permission denied: 'invoices/january.pdf'")
  | _ => None
  end.

Definition fetch_fails (r : request) : option exn :=
  match r with
  | MessagesGet _ _ => Some (HttpError "503 service unavailable")
  | _ => None
  end.

Definition remove_fails (r : request) : option exn :=
  match r with
  | OsRemove _ => Some (OSError "[Errno 13] Permission denied: 'invoices/january.pdf'")
  | _ => None
  end.

Definition world0 : World := {| fs := ∅; log := []; trace := [] |}.

Definition gmail : service := Service "gmail" "v1".
Definition drive : service := Service "drive" "v3".

End Sample.

(** ** Predicates on inputs *)

(** ['body' in part and 'attachmentId' in part['body']] evaluates to
    [False]: the part has no body, or its body has no attachment
    identifier. *)
Definition lacks_attachment_id (part : pyval) : Prop :=
  Py.contains "body" part = inr false
  \/ exists body,
       Py.getitem part "body" = inr body
       /\ Py.contains "attachmentId" body = inr false.

(** The message has no payload, or its payload has no parts, or an empty
    list of them. *)
Definition has_no_parts (message : pyval) : Prop :=
  Py.contains "payload" message = inr false
  \/ exists payload,
       Py.getitem message "payload" = inr payload
       /\ (Py.contains "parts" payload = inr false
           \/ (Py.contains "parts" payload = inr true
               /\ Py.getitem payload "parts" = inr (PList []))).

(** The run of [process_emails] from [w] stops at [w'] with [e] raised by
    the authentication to the mail service, by the authentication to the
    storage service, or by the search itself. *)
Definition startup_fails (env : Env) (w : World) (e : exn) (w' : World) : Prop :=
  get_google_service env "gmail" "v1" None w = (inl e, w')
  \/ (exists gs w1,
        get_google_service env "gmail" "v1" None w = (inr gs, w1)
        /\ get_google_service env "drive" "v3" None w1 = (inl e, w'))
  \/ (exists gs ds w1 w2,
        get_google_service env "gmail" "v1" None w = (inr gs, w1)
        /\ get_google_service env "drive" "v3" None w1 = (inr ds, w2)
        /\ call env (MessagesList "me" query) w2 = (inl e, w')).

(** Calls of the start of a run: authentication and the search. *)
Definition is_startup_call (ev : event) : bool :=
  match fst ev with
  | CredsRefresh | FlowFromClientSecretsFile _ _ | FlowRunLocalServer _
  | Build _ _ | MessagesList _ _ => true
  | _ => false
  end.

(** ** The search query as the specification words it *)

(** The senders and the subject keywords that appear in the literal. *)
Definition configured_senders : list string :=
  [ "billing@render.com"; "support@netlify.com"; "billing@netlify.com";
    "payments-noreply@google.com"; "billing@webflow.com"; "billing@box.com";
    "billing@typeform.com"; "no-reply@business.amazon.com";
    "*@anthemwelderssupply.com" ].

Definition configured_subject_keywords : list string :=
  [ "invoice"; "receipt"; "bill"; "payment" ].

(** One parenthesised group: [(field:v1 OR field:v2 OR ...)]. *)
Definition or_group (field : string) (values : list string) : string :=
  "(" +:+ Str.join " OR " (map (fun v => field +:+ ":" +:+ v) values) +:+ ")".

(** The time window, the sender group, the subject group and the
    attachment constraint, joined with [AND]. *)
Definition spec_query : string :=
  Str.join " AND "
    [ "newer:1d";
      or_group "from" configured_senders;
      or_group "subject" configured_subject_keywords;
      "has:attachment" ].

(** Calls made by [upload_to_drive]. *)
Definition is_upload_call (ev : event) : bool :=
  match fst ev with
  | MediaFileUpload _ _ _ | FilesCreate _ _ _ _ => true
  | _ => false
  end.

(** If [ev] is the creation of the remote file, it carries [name] and the
    bytes that [files] holds at the local path of [name]. *)
Definition uploads_from (files : filesystem) (name : pyval) (ev : event) : Prop :=
  match fst ev with
  | FilesCreate n _ media _ =>
      n = name
      /\ files !! Path.resolve ("invoices/" +:+ Py.str name) = Some (media_content media)
  | _ => True
  end.

(** The calls of [upload_to_drive] for the file at [path] holding
    [content]: the file is opened for reading and, when that goes through,
    the storage service is asked for a file named [name] made of
    [content]. *)
Definition upload_calls (env : Env) (name : pyval) (path : string) (content : bytes)
    (evs : list event) : Prop :=
  (exists e, evs = [(MediaFileUpload path "application/pdf" true, inl e)])
  \/ exists opened answer,
       evs = [(MediaFileUpload path "application/pdf" true, inr opened);
              (FilesCreate name [DRIVE_FOLDER_ID env]
                 {| media_filename := path; media_mimetype := "application/pdf";
                    media_resumable := true; media_content := content |} "id",
               answer)].

(** The local file of an attachment once [process_attachment] is done with
    it: gone when the removal returned, holding [data] when it raised. *)
Definition after_removal (removal : result pyval) (data : bytes) : option bytes :=
  match removal with
  | inr _ => None
  | inl _ => Some data
  end.

(** The part has a non-empty filename whose lowercase form ends in
    [.pdf]. *)
Definition pdf_named (part : pyval) : Prop :=
  exists name,
    Py.getitem part "filename" = inr (PStr name)
    /\ name <> EmptyString
    /\ Str.endswith (Str.lower name) ".pdf" = true.

(** [ev], if it is a download, fetches for message [msg_id] the attachment
    that [part] identifies. *)
Definition downloads_for (msg_id part : pyval) (ev : event) : Prop :=
  is_download ev = true ->
  exists body attachment_id,
    Py.getitem part "body" = inr body
    /\ Py.getitem body "attachmentId" = inr attachment_id
    /\ fst ev = AttachmentsGet "me" msg_id attachment_id.

(** [ev], if it is a download, is accounted for by a PDF-named part among
    [items]. *)
Definition download_justified (msg_id : pyval) (items : list pyval) (ev : event) : Prop :=
  is_download ev = true ->
  exists part, part ∈ items /\ pdf_named part /\ downloads_for msg_id part ev.

(** ** A run over three messages *)

Definition returns {A} (r : result A) : Prop := exists v, r = inr v.





(** Every call among [evs] that raised has its exception in an [ERROR]
    entry of [entries]. *)
Definition failures_logged (evs : list event) (entries : list (level * string)) : Prop :=
  forall ev e,
    ev ∈ evs -> failed ev = Some e ->
    exists context, (ERROR, context +:+ Py.exn_str e) ∈ entries.

(** From [w] to [w'] the trace and the log only grew, and every call that
    raised in between was logged in between. *)
Definition logs_its_failures (w w' : World) : Prop :=
  exists evs entries,
    trace w' = trace w ++ evs
    /\ log w' = log w ++ entries
    /\ failures_logged evs entries.

(** ** The calls a run may make *)

(** Calls made outside [process_attachment], with the arguments the program
    fixes: the interactive authorization, the two service handles, the
    search, the fetch of a message and the creation of the scratch
    directory. *)
Definition control_call (ev : event) : Prop :=
  match fst ev with
  | FlowFromClientSecretsFile file scopes => file = "credentials.json" /\ scopes = SCOPES
  | FlowRunLocalServer port => port = 0
  | Build name version =>
      (name = "gmail" /\ version = "v1") \/ (name = "drive" /\ version = "v3")
  | MessagesList user q => user = "me" /\ q = query
  | MessagesGet user _ => user = "me"
  | Makedirs path exist_ok => path = "invoices" /\ exist_ok = true
  | _ => False
  end.

(** Calls made by [process_attachment] and [upload_to_drive]: local paths
    are [invoices/] followed by a name, uploads are resumable PDF uploads
    into the configured folder asking for the [id] field. *)
Definition attachment_call (env : Env) (ev : event) : Prop :=
  match fst ev with
  | AttachmentsGet user _ _ => user = "me"
  | OpenWb path | FileWrite path _ | OsRemove path =>
      exists name, path = "invoices/" +:+ name
  | MediaFileUpload path mimetype resumable =>
      (exists name, path = "invoices/" +:+ name)
      /\ mimetype = "application/pdf" /\ resumable = true
  | FilesCreate name parents media fields =>
      parents = [DRIVE_FOLDER_ID env]
      /\ fields = "id"
      /\ media_filename media = "invoices/" +:+ Py.str name
      /\ media_mimetype media = "application/pdf"
      /\ media_resumable media = true
  | _ => False
  end.

Definition conforms (env : Env) (ev : event) : Prop :=
  control_call ev \/ attachment_call env ev.

(** ** Files left behind *)

(** A write or a removal that raised. *)
Definition is_failed_write (ev : event) : bool :=
  match ev with
  | (FileWrite _ _, inl _) => true
  | _ => false
  end.

Definition is_failed_removal (ev : event) : bool :=
  match ev with
  | (OsRemove _, inl _) => true
  | _ => false
  end.

(** Every file of [files'] is a file of [files], with the same content. *)
Definition no_new_file (files files' : filesystem) : Prop :=
  forall key content, files' !! key = Some content -> files !! key = Some content.

(** Neither a write nor a removal raised among [evs]. *)
Definition cleanly (evs : list event) : Prop :=
  Forall (fun ev => is_failed_write ev = false /\ is_failed_removal ev = false) evs.

(** From [w] to [w'], unless a write or a removal raised, no file appeared
    or changed. *)
Definition tidy (w w' : World) : Prop :=
  exists evs,
    trace w' = trace w ++ evs
    /\ (cleanly evs -> no_new_file (fs w) (fs w')).

Definition is_message_fetch (ev : event) : bool :=
  match fst ev with
  | MessagesGet _ _ => true
  | _ => false
  end.

(** The call succeeded. *)
Definition succeeded (ev : event) : Prop := failed ev = None.

(** The two calls of the interactive authorization. *)
Definition is_interactive_flow (ev : event) : bool :=
  match fst ev with
  | FlowFromClientSecretsFile _ _ | FlowRunLocalServer _ => true
  | _ => false
  end.

(** The credentials are unusable as they are and cannot be refreshed:
    there are none, or they are invalid and either not expired or without
    a refresh token. *)
Definition needs_interactive_flow (creds : option Credentials) : Prop :=
  match creds with
  | None => True
  | Some c =>
      valid c = false /\ (expired c = false \/ Py.truthy (refresh_token c) = false)
  end.

(** The credentials are invalid, expired and hold a refresh token. *)
Definition refreshable (creds : option Credentials) : Prop :=
  match creds with
  | None => False
  | Some c => valid c = false /\ expired c = true /\ Py.truthy (refresh_token c) = true
  end.

(** The bytes that a write or the creation of a remote file carries are
    [data]. *)
Definition carries (data : bytes) (ev : event) : Prop :=
  match fst ev with
  | FileWrite _ written => written = data
  | FilesCreate _ _ media _ => media_content media = data
  | _ => True
  end.

(** What [upload_to_drive] logs once the storage service has answered
    [file]. *)
Definition upload_entry (filename file : pyval) : level * string :=
  match Py.get file "id" PNone with
  | inr id =>
      (INFO, "File " +:+ Py.str filename +:+ " uploaded successfully, ID: " +:+ Py.str id)
  | inl e => (ERROR, "Error uploading to Drive: " +:+ Py.exn_str e)
  end.

(** From [w] to [w'] the trace grew by calls that all satisfy [P]. *)
Definition emits (P : event -> Prop) (w w' : World) : Prop :=
  exists evs, trace w' = trace w ++ evs /\ Forall P evs.

(** ** The downloads a message calls for *)

(** The value of [part.get('filename') and
    part['filename'].lower().endswith('.pdf')] taken as a condition, or the
    exception it raises. *)
Definition selects (part : pyval) : result bool :=
  match Py.get part "filename" PNone with
  | inl e => inl e
  | inr name =>
      if Py.truthy name then
        match Py.getitem part "filename" with
        | inl e => inl e
        | inr filename =>
            match Py.lower filename with
            | inl e => inl e
            | inr lowered => inr (Str.endswith lowered ".pdf")
            end
        end
      else inr false
  end.

(** [part['body']['attachmentId']] when ['body' in part and 'attachmentId'
    in part['body']] holds and the subscripts go through. *)
Definition attachment_id_of (part : pyval) : option pyval :=
  match Py.contains "body" part with
  | inr true =>
      match Py.getitem part "body" with
      | inr body =>
          match Py.contains "attachmentId" body with
          | inr true =>
              match Py.getitem body "attachmentId" with
              | inr id => Some id
              | inl _ => None
              end
          | _ => None
          end
      | inl _ => None
      end
  | _ => None
  end.

(** The download a part calls for, if any. *)
Definition expected_download (msg_id part : pyval) : list request :=
  match selects part, attachment_id_of part with
  | inr true, Some id => [AttachmentsGet "me" msg_id id]
  | _, _ => []
  end.

(** The downloads among [evs], in order. *)
Definition download_requests (evs : list event) : list request :=
  map fst (List.filter is_download evs).

(** A mailbox given by [box], every other call answering as in [Sample]. *)
Definition mailbox_env (box : pyval -> result pyval) : Env :=
  {| respond := fun h r =>
       match r with
       | MessagesGet _ id => box id
       | _ => Sample.answer Sample.no_failure h r
       end;
     partial_write := fun _ _ _ => 0%nat;
     urlsafe_b64decode := Sample.decode;
     DRIVE_FOLDER_ID := Some "folder-id" |}.

(** A message whose second part has a number for a filename. *)
Definition message_with_numeric_filename : pyval :=
  message_of_parts
    [part_of "first.pdf" (PStr "a1");
     PDict [("filename", PInt 7)];
     part_of "third.pdf" (PStr "a3")].

(** The message fetches among [evs], in order. *)
Definition fetch_requests (evs : list event) : list request :=
  map fst (List.filter is_message_fetch evs).

(** The calls [process_emails] makes before it looks at a message, in
    order: the interactive authorization and the handle for the mail
    service, the same for the storage service, then the search. *)
Definition startup_plan : list request :=
  [ FlowFromClientSecretsFile "credentials.json" SCOPES;
    FlowRunLocalServer 0;
    Build "gmail" "v1";
    FlowFromClientSecretsFile "credentials.json" SCOPES;
    FlowRunLocalServer 0;
    Build "drive" "v3";
    MessagesList "me" query ].

(** * Properties *)

(** ** Bookkeeping *)

Lemma new_events_app w w' evs : trace w' = trace w ++ evs -> new_events w w' = evs.
Proof. unfold new_events. intros ->. by rewrite drop_app_length. Qed.

Lemma new_log_app w w' entries : log w' = log w ++ entries -> new_log w w' = entries.
Proof. unfold new_log. intros ->. by rewrite drop_app_length. Qed.

Ltac unfold_monad :=
  unfold os_makedirs, open_wb, file_write, os_remove, media_file_upload in *;
  unfold try_except, bind, lift, ret, raise, call, logger_info, logger_error in *;
  cbn [fs trace log set_fs add_event add_log fst snd] in *.

Lemma trace_add_event ev w : trace (add_event ev w) = trace w ++ [ev].
Proof. reflexivity. Qed.
Lemma trace_add_log entry w : trace (add_log entry w) = trace w.
Proof. reflexivity. Qed.
Lemma trace_set_fs f w : trace (set_fs f w) = trace w.
Proof. reflexivity. Qed.
Lemma log_add_event ev w : log (add_event ev w) = log w.
Proof. reflexivity. Qed.
Lemma log_add_log entry w : log (add_log entry w) = log w ++ [entry].
Proof. reflexivity. Qed.
Lemma log_set_fs f w : log (set_fs f w) = log w.
Proof. reflexivity. Qed.
Lemma fs_add_event ev w : fs (add_event ev w) = fs w.
Proof. reflexivity. Qed.
Lemma fs_add_log entry w : fs (add_log entry w) = fs w.
Proof. reflexivity. Qed.
Lemma fs_set_fs f w : fs (set_fs f w) = f (fs w).
Proof. reflexivity. Qed.

Create Rewrite HintDb world.
#[global] Hint Rewrite trace_add_event trace_add_log trace_set_fs log_add_event
  log_add_log log_set_fs fs_add_event fs_add_log fs_set_fs : world.

(** Brings [new_events w w'] and [new_log w w'] to the list of what was
    appended. *)
Ltac appended :=
  unfold new_events, new_log;
  autorewrite with world;
  rewrite <- ?app_assoc;
  rewrite ?drop_app_length, ?drop_all;
  cbn [app].

(** ** Functions that catch everything *)

(** A subscript that succeeds is one whose key passes the [in] test. *)
Lemma getitem_contains v k x : Py.getitem v k = inr x -> Py.contains k v = inr true.
Proof.
  destruct v; simpl; try discriminate.
  destruct (Py.assoc k d) eqn:Hk; [reflexivity|discriminate].
Qed.

Section Handlers.

Variable env : Env.

(** A [try] whose handler only logs returns normally whatever its body does. *)
Lemma logged_try_returns (body : M unit) (text : exn -> string) w :
  outcome (try_except body (fun e => logger_error (text e))) w = inr tt.
Proof.
  unfold outcome, try_except, logger_error.
  destruct (body w) as [[e|[]] w']; reflexivity.
Qed.

Lemma upload_to_drive_returns ds filename w :
  outcome (upload_to_drive env ds filename) w = inr tt.
Proof. apply logged_try_returns. Qed.

Lemma process_attachment_returns gs ds msg_id part w :
  outcome (process_attachment env gs ds msg_id part) w = inr tt.
Proof. apply logged_try_returns. Qed.

Lemma process_single_email_returns gs ds msg_id w :
  outcome (process_single_email env gs ds msg_id) w = inr tt.
Proof. apply logged_try_returns. Qed.

Lemma process_emails_returns w : outcome (process_emails env) w = inr tt.
Proof. apply logged_try_returns. Qed.

Lemma run_split {A} (m : M A) w : m w = (outcome m w, exec m w).
Proof. unfold outcome, exec. by destruct (m w). Qed.

End Handlers.

(** [C10] [upload_to_drive] returns normally on every input, so its caller
    sees the same outcome after a failed upload as after a successful one;
    and whenever one of its calls raises, that exception is what the
    function logs, as its only log entry. *)
Theorem upload_to_drive_never_raises env ds filename w :
  outcome (upload_to_drive env ds filename) w = inr tt
  /\ forall ev e,
       ev ∈ new_events w (exec (upload_to_drive env ds filename) w) ->
       failed ev = Some e ->
       new_log w (exec (upload_to_drive env ds filename) w)
       = [(ERROR, "Error uploading to Drive: " +:+ Py.exn_str e)].
Proof.
  split; [apply upload_to_drive_returns|].
  intros ev e. unfold exec, upload_to_drive. unfold_monad.
  repeat (case_match; simplify_eq/=); appended;
    rewrite ?elem_of_cons, ?elem_of_nil; unfold failed;
    intros Hev Hfail; destruct_or?; simplify_eq/=; done.
Qed.

(** ** Inputs with nothing to do *)

(** [C8] A part for which ['body' in part and 'attachmentId' in
    part['body']] is false -- no body, or a body without an attachment
    identifier -- is skipped in silence: [process_attachment] returns and
    the world is what it was, with no call made, no file written and no log
    entry added. *)
Theorem part_without_attachment_id_is_skipped env gs ds msg_id part w :
  lacks_attachment_id part ->
  process_attachment env gs ds msg_id part w = (inr tt, w).
Proof.
  intros [Hbody | (body & Hget & Hid)];
    unfold process_attachment, has_nested; unfold_monad.
  - by rewrite Hbody.
  - rewrite (getitem_contains _ _ _ Hget). by rewrite Hget, Hid.
Qed.

Lemma part_without_attachment_id_is_skipped_witness :
  process_attachment (Sample.env Sample.no_failure) Sample.gmail Sample.drive
    (PStr "m1") (PDict [("filename", PStr "scan.pdf"); ("body", PDict [("size", PInt 0)])])
    Sample.world0
  = (inr tt, Sample.world0).
Proof.
  apply part_without_attachment_id_is_skipped.
  right. exists (PDict [("size", PInt 0)]). split; reflexivity.
Defined.

(** [C5] When the fetched message has no payload, or a payload without
    parts (or with an empty list of parts), processing it returns normally
    having made the one call that fetched the message: no file is created,
    nothing is downloaded and nothing is logged. *)
Theorem message_without_parts_yields_nothing env gs ds msg_id message w :
  respond env (trace w) (MessagesGet "me" msg_id) = inr message ->
  has_no_parts message ->
  let w' := exec (process_single_email env gs ds msg_id) w in
  outcome (process_single_email env gs ds msg_id) w = inr tt
  /\ fs w' = fs w
  /\ log w' = log w
  /\ new_events w w' = [(MessagesGet "me" msg_id, inr message)].
Proof.
  intros Hfetch Hparts.
  assert (process_single_email env gs ds msg_id w
          = (inr tt, add_event (MessagesGet "me" msg_id, inr message) w)) as Hrun.
  { unfold process_single_email, has_nested. unfold_monad. rewrite Hfetch.
    destruct Hparts as [Hpayload | (payload & Hget & Hparts)].
    - by rewrite Hpayload.
    - rewrite (getitem_contains _ _ _ Hget), Hget.
      destruct Hparts as [-> | [-> ->]]; done. }
  unfold exec, outcome. rewrite Hrun. cbn [fst snd].
  repeat split. by appended.
Qed.

Lemma message_without_parts_yields_nothing_witness :
  let env := Sample.env Sample.no_failure in
  let run := process_single_email env Sample.gmail Sample.drive (PStr "m4") in
  outcome run Sample.world0 = inr tt
  /\ fs (exec run Sample.world0) = ∅
  /\ log (exec run Sample.world0) = []
  /\ new_events Sample.world0 (exec run Sample.world0)
     = [(MessagesGet "me" (PStr "m4"),
         inr (PDict [("payload", PDict [("mimeType", PStr "text/plain")])]))].
Proof.
  apply (message_without_parts_yields_nothing (Sample.env Sample.no_failure)
           Sample.gmail Sample.drive (PStr "m4") _ Sample.world0).
  - reflexivity.
  - right. eexists. split; [reflexivity|]. left. reflexivity.
Defined.

(** ** Failures before the first message *)

Lemma get_google_service_frame env name version creds w :
  let w' := exec (get_google_service env name version creds) w in
  fs w' = fs w /\ log w' = log w
  /\ exists evs, trace w' = trace w ++ evs
                 /\ Forall (fun ev => is_startup_call ev = true) evs.
Proof.
  unfold exec, get_google_service. unfold_monad.
  repeat (case_match; simplify_eq/=); autorewrite with world;
    rewrite <- ?app_assoc; (repeat split; [eexists; split; [try reflexivity|]]);
    try (symmetry; apply app_nil_r); repeat constructor.
Qed.

(** [C6] When the authentication to the mail service, the authentication
    to the storage service or the search raises, [process_emails] returns
    normally -- nothing reaches its caller -- after logging that exception
    as its only log entry; the calls of the run are authentication and
    search calls only, so no message is fetched, and the local files are
    untouched. *)
Theorem startup_failure_ends_run env w e w1 :
  startup_fails env w e w1 ->
  let w' := exec (process_emails env) w in
  outcome (process_emails env) w = inr tt
  /\ new_log w w' = [(ERROR, "Error processing emails: " +:+ Py.exn_str e)]
  /\ fs w' = fs w
  /\ Forall (fun ev => is_startup_call ev = true) (new_events w w').
Proof.
  intros Hfail w'.
  split; [apply process_emails_returns|].
  assert (process_emails env w
          = (inr tt, add_log (ERROR, "Error processing emails: " +:+ Py.exn_str e) w1)
          /\ fs w1 = fs w /\ log w1 = log w
          /\ exists evs, trace w1 = trace w ++ evs
                         /\ Forall (fun ev => is_startup_call ev = true) evs)
    as (Hrun & Hfs & Hlog & evs & Htrace & Hevs).
  { destruct Hfail as [Hgmail | [(gs & w2 & Hgmail & Hdrive)
                                | (gs & ds & w2 & w3 & Hgmail & Hdrive & Hlist)]].
    - split.
      { unfold process_emails, try_except, bind at 1. by rewrite Hgmail. }
      pose proof (get_google_service_frame env "gmail" "v1" None w) as Hframe.
      unfold exec in Hframe. by rewrite Hgmail in Hframe.
    - split.
      { unfold process_emails, try_except, bind at 1. rewrite Hgmail.
        unfold bind at 1. by rewrite Hdrive. }
      pose proof (get_google_service_frame env "gmail" "v1" None w) as Hframe.
      pose proof (get_google_service_frame env "drive" "v3" None w2) as Hframe2.
      unfold exec in Hframe, Hframe2. rewrite Hgmail in Hframe. rewrite Hdrive in Hframe2.
      cbn [snd] in *.
      destruct Hframe as (Hfs & Hlog & evs & Htr & Hall).
      destruct Hframe2 as (Hfs2 & Hlog2 & evs2 & Htr2 & Hall2).
      repeat split; [congruence..|].
      exists (evs ++ evs2). split; [by rewrite Htr2, Htr, app_assoc|].
      by apply Forall_app.
    - split.
      { unfold process_emails, try_except, bind at 1. rewrite Hgmail.
        unfold bind at 1. rewrite Hdrive. unfold bind at 1. by rewrite Hlist. }
      pose proof (get_google_service_frame env "gmail" "v1" None w) as Hframe.
      pose proof (get_google_service_frame env "drive" "v3" None w2) as Hframe2.
      unfold exec in Hframe, Hframe2. rewrite Hgmail in Hframe. rewrite Hdrive in Hframe2.
      cbn [snd] in *.
      destruct Hframe as (Hfs & Hlog & evs & Htr & Hall).
      destruct Hframe2 as (Hfs2 & Hlog2 & evs2 & Htr2 & Hall2).
      unfold call in Hlist. simplify_eq. autorewrite with world.
      repeat split; [congruence..|].
      eexists (evs ++ evs2 ++ [_]). split.
      { rewrite Htr2, Htr. by rewrite <- !app_assoc. }
      repeat (apply Forall_app; split); try done. by repeat constructor. }
  subst w'. unfold exec. rewrite Hrun. cbn [snd]. autorewrite with world.
  repeat split.
  - apply new_log_app. by rewrite log_add_log, Hlog.
  - done.
  - by rewrite (new_events_app _ _ evs).
Qed.

Lemma startup_failure_ends_run_witness :
  let env := Sample.env Sample.auth_fails in
  let w' := exec (process_emails env) Sample.world0 in
  outcome (process_emails env) Sample.world0 = inr tt
  /\ new_log Sample.world0 w'
     = [(ERROR, "Error processing emails: "
                +:+ Py.exn_str (FileNotFoundError "credentials.json"))]
  /\ fs w' = ∅
  /\ Forall (fun ev => is_startup_call ev = true) (new_events Sample.world0 w').
Proof.
  eapply (startup_failure_ends_run (Sample.env Sample.auth_fails) Sample.world0).
  left. reflexivity.
Defined.

(** ** The job body *)

(** [C7], as stated, fails: [os.makedirs] is called outside every [try],
    so when it raises -- here because [invoices] exists and is not a
    directory -- the job body raises into the scheduler loop. *)
Lemma main_raises_when_makedirs_fails :
  outcome (main (Sample.env Sample.makedirs_fails)) Sample.world0
  = inl (OSError "[Errno 17] File exists: 'invoices'").
Proof. reflexivity. Qed.

(** [C7], amended: in every run in which creating the scratch directory
    succeeds, whatever the authentication, the search, the message fetches,
    the attachment fetches and decodings, the local writes and the uploads
    do, the job body returns normally, its last log entry being the
    completion message. *)
Theorem main_completes env w v :
  respond env (trace w) (Makedirs "invoices" true) = inr v ->
  outcome (main env) w = inr tt
  /\ last (log (exec (main env) w)) = Some (INFO, "Completed invoice processing job").
Proof.
  intros Hdir.
  assert (main env w
          = (inr tt,
             add_log (INFO, "Completed invoice processing job")
               (exec (process_emails env)
                  (add_event (Makedirs "invoices" true, inr v)
                     (add_log (INFO, "Starting invoice processing job") w)))))
    as Hrun.
  { unfold main, os_makedirs.
    unfold bind at 1. unfold logger_info at 1.
    unfold bind at 1. unfold bind at 1. unfold call at 1.
    autorewrite with world. rewrite Hdir. unfold ret at 1.
    unfold bind at 1. rewrite (run_split (process_emails env)).
    by rewrite process_emails_returns. }
  unfold outcome, exec at 1. rewrite Hrun. cbn [fst snd]. autorewrite with world.
  split; [done|]. apply last_snoc.
Qed.

Lemma main_completes_witness :
  outcome (main (Sample.env Sample.second_download_fails)) Sample.world0 = inr tt
  /\ last (log (exec (main (Sample.env Sample.second_download_fails)) Sample.world0))
     = Some (INFO, "Completed invoice processing job").
Proof.
  apply (main_completes (Sample.env Sample.second_download_fails) Sample.world0 PNone).
  reflexivity.
Defined.

(** ** The search query *)

(** [C4] Read as a sequence of blank-separated words, the query built by
    [process_emails] is the time window [newer:1d], the group of all
    configured senders joined with [OR], the group of all configured
    subject keywords joined with [OR], and [has:attachment], with [AND]
    between them; it has no leading or trailing blank and no line break. *)
Theorem query_has_all_constraints :
  Str.join " " (Str.words query) = spec_query
  /\ Str.strip query = query
  /\ Str.replace "010" " " query = query.
Proof. repeat split; vm_compute; reflexivity. Qed.

(** ** Local files of an attachment *)

Arguments String.append : simpl never.

Lemma upload_to_drive_run env ds filename w r w' :
  upload_to_drive env ds filename w = (r, w') ->
  r = inr tt /\ fs w' = fs w
  /\ exists evs,
       trace w' = trace w ++ evs
       /\ Forall (fun ev => is_upload_call ev = true
                            /\ touched_path ev = Some ("invoices/" +:+ Py.str filename)
                            /\ uploads_from (fs w) filename ev) evs.
Proof.
  unfold upload_to_drive. unfold_monad.
  intros Hrun.
  repeat (case_match; simplify_eq/=); autorewrite with world;
    rewrite <- ?app_assoc; (repeat split; []); eexists; (split; [reflexivity|]);
    repeat constructor; done.
Qed.

(** What [upload_to_drive] does when the local file is there. *)
Lemma upload_to_drive_calls env ds filename content w :
  let path := "invoices/" +:+ Py.str filename in
  let w' := exec (upload_to_drive env ds filename) w in
  fs w !! Path.resolve path = Some content ->
  fs w' = fs w
  /\ exists evs, trace w' = trace w ++ evs /\ upload_calls env filename path content evs.
Proof.
  intros path w' Hfile. subst path w'. unfold exec, upload_to_drive. unfold_monad.
  rewrite Hfile. unfold upload_calls.
  repeat (case_match; simplify_eq/=); autorewrite with world; rewrite <- ?app_assoc;
    (split; [done|]); eexists; (split; [reflexivity|]); cbn [app]; eauto.
Qed.

(** The run of [process_attachment] once the bytes are in the local file:
    the upload, then the removal, whose exception is logged. *)
Lemma process_attachment_written
    env gs ds msg_id part w body attachment_id attachment raw data filename opened written :
  let path := "invoices/" +:+ Py.str filename in
  let fetch : event := (AttachmentsGet "me" msg_id attachment_id, inr attachment) in
  let w3 := set_fs (insert (Path.resolve path) data)
              (add_event (FileWrite path data, inr written)
                 (set_fs (insert (Path.resolve path) [])
                    (add_event (OpenWb path, inr opened) (add_event fetch w)))) in
  let w4 := exec (upload_to_drive env ds filename) w3 in
  Py.getitem part "body" = inr body ->
  Py.getitem body "attachmentId" = inr attachment_id ->
  Py.getitem part "filename" = inr filename ->
  respond env (trace w) (AttachmentsGet "me" msg_id attachment_id) = inr attachment ->
  Py.getitem attachment "data" = inr raw ->
  urlsafe_b64decode env raw = inr data ->
  respond env (trace w ++ [fetch]) (OpenWb path) = inr opened ->
  respond env ((trace w ++ [fetch]) ++ [(OpenWb path, inr opened)]) (FileWrite path data)
  = inr written ->
  process_attachment env gs ds msg_id part w
  = (inr tt,
     match respond env (trace w4) (OsRemove path) with
     | inr v =>
         set_fs (delete (Path.resolve path)) (add_event (OsRemove path, inr v) w4)
     | inl e =>
         add_log (ERROR, "Error processing attachment: " +:+ Py.exn_str e)
           (add_event (OsRemove path, inl e) w4)
     end).
Proof.
  intros path fetch w3 w4 Hbody Hid Hname Hfetch Hraw Hdecode Hopen Hwrite.
  pose proof (upload_to_drive_calls env ds filename data w3) as Hup.
  cbn zeta in Hup. fold path w4 in Hup.
  destruct Hup as (Hfs & _); [subst w3; autorewrite with world; apply lookup_insert_eq|].
  unfold process_attachment, has_nested. unfold_monad.
  rewrite (getitem_contains _ _ _ Hbody), Hbody, (getitem_contains _ _ _ Hid), Hid.
  rewrite Hfetch, Hraw, Hdecode, Hname. fold path fetch. rewrite Hopen.
  autorewrite with world.
  match goal with
  | |- context [respond env ?h (FileWrite path data)] =>
      change (respond env h (FileWrite path data))
        with (respond env ((trace w ++ [fetch]) ++ [(OpenWb path, inr opened)])
                (FileWrite path data))
  end.
  rewrite Hwrite. fold w3.
  rewrite (run_split (upload_to_drive env ds filename)), upload_to_drive_returns.
  fold w4. rewrite Hfs. subst w3. autorewrite with world. rewrite lookup_insert_eq.
  by destruct (respond env (trace w4) (OsRemove path)).
Qed.

Lemma process_attachment_cleanup env gs ds msg_id part w path data resp :
  let w' := exec (process_attachment env gs ds msg_id part) w in
  (FileWrite path data, inr resp) ∈ new_events w w' ->
  exists removal,
    last (new_events w w') = Some (OsRemove path, removal)
    /\ match removal with
       | inr _ => fs w' = delete (Path.resolve path) (fs w)
       | inl e =>
           fs w' = <[Path.resolve path := data]> (fs w)
           /\ last (log w')
              = Some (ERROR, "Error processing attachment: " +:+ Py.exn_str e)
       end.
Proof.
  intros w'. subst w'. unfold exec, process_attachment, has_nested. unfold_monad.
  repeat (case_match; simplify_eq/=).
  all: try (appended; rewrite ?elem_of_cons, ?elem_of_nil; intros; destruct_or?;
            by simplify_eq).
  all: match goal with
       | H : upload_to_drive _ _ _ _ = _ |- _ =>
           apply upload_to_drive_run in H as (? & Hfs & evs & Htr & Hevs)
       end; simplify_eq.
  all: autorewrite with world in Hfs, Htr.
  all: try match goal with
       | H : fs _ !! _ = None |- _ => by rewrite Hfs, lookup_insert_eq in H
       end.
  all: unfold new_events; autorewrite with world; rewrite Htr, <- !app_assoc;
    rewrite drop_app_length; cbn [app]; intros Hin.
  all: rewrite !elem_of_cons, elem_of_app, elem_of_cons, elem_of_nil in Hin.
  all: destruct_or?; simplify_eq;
    try (rewrite Forall_forall in Hevs; by destruct (Hevs _ Hin) as (? & ? & ?)).
  all: eexists; split;
    [ rewrite !app_comm_cons; apply last_snoc |].
  all: cbn beta iota; rewrite ?Hfs, ?delete_insert_eq, ?insert_insert_eq;
    try done.
  all: split; [done|]; apply last_snoc.
Qed.

Lemma scratch_files_delete (key : list string) (files : filesystem) :
  scratch_files files = ∅ -> scratch_files (delete key files) = ∅.
Proof.
  unfold scratch_files. intros Hempty.
  by rewrite map_filter_delete, Hempty, delete_empty.
Qed.

(** A file outside the scratch directory is no file of it. *)
Lemma scratch_files_delete_outside (key : list string) (files : filesystem) :
  Path.inside "invoices" key = false ->
  scratch_files (delete key files) = scratch_files files.
Proof.
  intros Houtside. unfold scratch_files. rewrite map_filter_delete.
  apply delete_id, map_lookup_filter_None. right. intros content _. cbn. congruence.
Qed.

Lemma scratch_files_insert_outside (key : list string) (content : bytes)
    (files : filesystem) :
  Path.inside "invoices" key = false ->
  scratch_files (<[key := content]> files) = scratch_files files.
Proof.
  intros Houtside. rewrite <- (scratch_files_delete_outside key files Houtside).
  unfold scratch_files. apply map_filter_insert_False. cbn. congruence.
Qed.

(** [C1], as stated, fails: the removal of the local file is itself a call
    that can raise.  Here the attachment is written and uploaded, the
    removal is refused, and the file is still in the scratch directory when
    [process_attachment] returns. *)
Lemma scratch_file_stays_when_removal_raises :
  let env := Sample.env Sample.remove_fails in
  let part := Sample.pdf_part "january.pdf" "a1" in
  let w' := exec (process_attachment env Sample.gmail Sample.drive (PStr "m1") part)
              Sample.world0 in
  (FileWrite "invoices/january.pdf" (list_byte_of_string "%PDF a1"), inr PNone)
    ∈ new_events Sample.world0 w'
  /\ log w'
     = [(INFO, "File january.pdf uploaded successfully, ID: drive:january.pdf");
        (ERROR, "Error processing attachment: "
                +:+ "[Errno 13] Permission denied: 'invoices/january.pdf'")]
  /\ map_to_list (scratch_files (fs Sample.world0)) = []
  /\ map_to_list (scratch_files (fs w'))
     = [(["invoices"; "january.pdf"], list_byte_of_string "%PDF a1")].
Proof.
  split; [vm_compute; do 2 apply list_elem_of_further; apply list_elem_of_here|].
  repeat split; vm_compute; reflexivity.
Qed.

(** [C1], amended: whenever [process_attachment] has written the
    attachment's bytes to its local file, its last call is the removal of
    that file, and it returns normally.  No assumption is made on the
    upload, so the removal is attempted after an upload that failed as
    after one that succeeded.  When the removal returns, the file is absent
    afterwards, every other file is as it was, and a scratch directory that
    was empty is empty again; when it raises, the file stays with the bytes
    written and the exception is the last log entry. *)
Theorem scratch_file_removed_whatever_the_upload env gs ds msg_id part w path data resp :
  let w' := exec (process_attachment env gs ds msg_id part) w in
  (FileWrite path data, inr resp) ∈ new_events w w' ->
  outcome (process_attachment env gs ds msg_id part) w = inr tt
  /\ exists removal,
       last (new_events w w') = Some (OsRemove path, removal)
       /\ match removal with
          | inr _ =>
              fs w' !! Path.resolve path = None
              /\ fs w' = delete (Path.resolve path) (fs w)
              /\ (scratch_files (fs w) = ∅ -> scratch_files (fs w') = ∅)
          | inl e =>
              fs w' = <[Path.resolve path := data]> (fs w)
              /\ last (log w')
                 = Some (ERROR, "Error processing attachment: " +:+ Py.exn_str e)
          end.
Proof.
  intros w' Hwritten.
  destruct (process_attachment_cleanup _ _ _ _ _ _ _ _ _ Hwritten)
    as (removal & Hlast & Hfs).
  fold w' in Hlast, Hfs.
  split; [apply process_attachment_returns|].
  exists removal. split; [done|]. destruct removal as [e|v]; [done|].
  rewrite Hfs. split; [apply lookup_delete_eq|].
  split; [done|]. apply scratch_files_delete.
Qed.

Lemma scratch_file_removed_whatever_the_upload_witness :
  let env := Sample.env Sample.upload_fails in
  let part := Sample.pdf_part "january.pdf" "a1" in
  let w' := exec (process_attachment env Sample.gmail Sample.drive (PStr "m1") part)
              Sample.world0 in
  outcome (process_attachment env Sample.gmail Sample.drive (PStr "m1") part)
    Sample.world0 = inr tt
  /\ exists removal,
       last (new_events Sample.world0 w') = Some (OsRemove "invoices/january.pdf", removal)
       /\ match removal with
          | inr _ =>
              fs w' !! Path.resolve "invoices/january.pdf" = None
              /\ fs w' = delete (Path.resolve "invoices/january.pdf") (fs Sample.world0)
              /\ (scratch_files (fs Sample.world0) = ∅ -> scratch_files (fs w') = ∅)
          | inl e =>
              fs w' = <[Path.resolve "invoices/january.pdf"
                        := list_byte_of_string "%PDF a1"]> (fs Sample.world0)
              /\ last (log w')
                 = Some (ERROR, "Error processing attachment: " +:+ Py.exn_str e)
          end.
Proof.
  apply (scratch_file_removed_whatever_the_upload (Sample.env Sample.upload_fails)
           Sample.gmail Sample.drive (PStr "m1") (Sample.pdf_part "january.pdf" "a1")
           Sample.world0 "invoices/january.pdf" (list_byte_of_string "%PDF a1") PNone).
  vm_compute. do 2 apply list_elem_of_further. apply list_elem_of_here.
Defined.

(** In that run the upload did fail and the failure was logged. *)
Example failed_upload_is_logged_and_file_removed :
  let env := Sample.env Sample.upload_fails in
  let w' := exec (process_attachment env Sample.gmail Sample.drive (PStr "m1")
                    (Sample.pdf_part "january.pdf" "a1")) Sample.world0 in
  log w' = [(ERROR, "Error uploading to Drive: 403 insufficient permissions")]
  /\ map_to_list (fs w') = [].
Proof. split; reflexivity. Qed.

(** The same part with an upload that succeeds. *)
Example successful_upload_and_file_removed :
  let env := Sample.env Sample.no_failure in
  let w' := exec (process_attachment env Sample.gmail Sample.drive (PStr "m1")
                    (Sample.pdf_part "january.pdf" "a1")) Sample.world0 in
  log w' = [(INFO, "File january.pdf uploaded successfully, ID: drive:january.pdf")]
  /\ map_to_list (fs w') = [].
Proof. split; reflexivity. Qed.

(** [C9] For a part whose attachment is fetched and decoded and whose local
    file can be opened and written, [process_attachment] opens and writes
    the path ['invoices/' + filename], the name being taken as it is, has
    [upload_to_drive] read that same path and send the bytes written under
    the same name, and ends with the removal of that path.  What the path
    held before plays no part: the file is gone when the removal returns
    and holds the bytes written when it raises, so an earlier attachment of
    the same name is overwritten.  When the path resolves outside
    [invoices], as for the name [../x.pdf], the scratch directory is as it
    was and the file written, or removed, lies outside it. *)
Theorem local_path_is_invoices_plus_filename
    env gs ds msg_id part w body attachment_id attachment raw data filename opened written :
  let path := "invoices/" +:+ Py.str filename in
  let fetch : event := (AttachmentsGet "me" msg_id attachment_id, inr attachment) in
  let w' := exec (process_attachment env gs ds msg_id part) w in
  Py.getitem part "body" = inr body ->
  Py.getitem body "attachmentId" = inr attachment_id ->
  Py.getitem part "filename" = inr filename ->
  respond env (trace w) (AttachmentsGet "me" msg_id attachment_id) = inr attachment ->
  Py.getitem attachment "data" = inr raw ->
  urlsafe_b64decode env raw = inr data ->
  respond env (trace w ++ [fetch]) (OpenWb path) = inr opened ->
  respond env ((trace w ++ [fetch]) ++ [(OpenWb path, inr opened)]) (FileWrite path data)
  = inr written ->
  exists upload removal,
    new_events w w'
    = [fetch; (OpenWb path, inr opened); (FileWrite path data, inr written)]
      ++ upload ++ [(OsRemove path, removal)]
    /\ upload_calls env filename path data upload
    /\ fs w' !! Path.resolve path = after_removal removal data
    /\ (forall key, key <> Path.resolve path -> fs w' !! key = fs w !! key)
    /\ (Path.inside "invoices" (Path.resolve path) = false ->
        scratch_files (fs w') = scratch_files (fs w))
    /\ (Py.str filename = "../x.pdf" ->
        Path.inside "invoices" (Path.resolve path) = false
        /\ fs w' !! ["x.pdf"] = after_removal removal data).
Proof.
  intros path fetch w' Hbody Hid Hname Hfetch Hraw Hdecode Hopen Hwrite.
  subst w'. unfold exec.
  rewrite (process_attachment_written env gs ds msg_id part w body attachment_id
             attachment raw data filename opened written) by done.
  cbn zeta. fold path fetch.
  set (w3 := set_fs (insert (Path.resolve path) data) _).
  destruct (upload_to_drive_calls env ds filename data w3) as (Hfs & upload & Htr & Hup);
    [subst w3; autorewrite with world; apply lookup_insert_eq|].
  fold path in Hfs, Htr, Hup.
  set (w4 := exec (upload_to_drive env ds filename) w3) in *.
  exists upload, (respond env (trace w4) (OsRemove path)).
  assert (fs w4 = <[Path.resolve path := data]> (fs w)) as Hfs4.
  { rewrite Hfs. subst w3. autorewrite with world. apply insert_insert_eq. }
  assert (forall w5,
            trace w5 = trace w4 ++ [(OsRemove path, respond env (trace w4) (OsRemove path))] ->
            new_events w w5
            = [fetch; (OpenWb path, inr opened); (FileWrite path data, inr written)]
              ++ upload ++ [(OsRemove path, respond env (trace w4) (OsRemove path))])
    as Hevents.
  { intros w5 Htr5. apply new_events_app. rewrite Htr5, Htr. subst w3.
    autorewrite with world. by rewrite <- !app_assoc. }
  assert (fs (snd (inr tt : result unit,
                   match respond env (trace w4) (OsRemove path) with
                   | inr v =>
                       set_fs (delete (Path.resolve path))
                         (add_event (OsRemove path, inr v) w4)
                   | inl e =>
                       add_log (ERROR, "Error processing attachment: " +:+ Py.exn_str e)
                         (add_event (OsRemove path, inl e) w4)
                   end))
          = match respond env (trace w4) (OsRemove path) with
            | inr _ => delete (Path.resolve path) (fs w)
            | inl _ => <[Path.resolve path := data]> (fs w)
            end) as Hfinal.
  { cbn [snd]. destruct (respond env (trace w4) (OsRemove path));
      autorewrite with world; rewrite Hfs4; [done | apply delete_insert_eq]. }
  assert (Py.str filename = "../x.pdf" -> Path.resolve path = ["x.pdf"]) as Hescape.
  { intros Hx. subst path. by rewrite Hx. }
  split; [|split; [done|]].
  { apply Hevents. cbn [snd]. by destruct (respond env (trace w4) (OsRemove path)). }
  rewrite Hfinal. clear Hfinal Hevents.
  assert (forall files : filesystem,
            match respond env (trace w4) (OsRemove path) with
            | inr _ => delete (Path.resolve path) files
            | inl _ => <[Path.resolve path := data]> files
            end !! Path.resolve path
            = after_removal (respond env (trace w4) (OsRemove path)) data) as Hat.
  { intros files. destruct (respond env (trace w4) (OsRemove path)); cbn;
      [apply lookup_insert_eq | apply lookup_delete_eq]. }
  split; [apply Hat|].
  split.
  { intros key Hkey. destruct (respond env (trace w4) (OsRemove path));
      [by apply lookup_insert_ne | by apply lookup_delete_ne]. }
  split.
  { intros Houtside. destruct (respond env (trace w4) (OsRemove path));
      [by apply scratch_files_insert_outside | by apply scratch_files_delete_outside]. }
  intros Hx. rewrite <- (Hescape Hx). split; [by rewrite (Hescape Hx)|apply Hat].
Qed.

Lemma local_path_is_invoices_plus_filename_witness :
  let env := Sample.env Sample.remove_fails in
  let part := Sample.pdf_part "../x.pdf" "a1" in
  let path := "invoices/../x.pdf" in
  let data := list_byte_of_string "%PDF a1" in
  let fetch : event :=
    (AttachmentsGet "me" (PStr "m1") (PStr "a1"), inr (PDict [("data", PStr "%PDF a1")])) in
  let w' := exec (process_attachment env Sample.gmail Sample.drive (PStr "m1") part)
              Sample.world0 in
  exists upload removal,
    new_events Sample.world0 w'
    = [fetch; (OpenWb path, inr PNone); (FileWrite path data, inr PNone)]
      ++ upload ++ [(OsRemove path, removal)]
    /\ upload_calls env (PStr "../x.pdf") path data upload
    /\ fs w' !! Path.resolve path = after_removal removal data
    /\ (forall key, key <> Path.resolve path -> fs w' !! key = fs Sample.world0 !! key)
    /\ (Path.inside "invoices" (Path.resolve path) = false ->
        scratch_files (fs w') = scratch_files (fs Sample.world0))
    /\ (Py.str (PStr "../x.pdf") = "../x.pdf" ->
        Path.inside "invoices" (Path.resolve path) = false
        /\ fs w' !! ["x.pdf"] = after_removal removal data).
Proof.
  apply (local_path_is_invoices_plus_filename (Sample.env Sample.remove_fails)
           Sample.gmail Sample.drive (PStr "m1") (Sample.pdf_part "../x.pdf" "a1")
           Sample.world0 (PDict [("attachmentId", PStr "a1")]) (PStr "a1")
           (PDict [("data", PStr "%PDF a1")]) (PStr "%PDF a1")
           (list_byte_of_string "%PDF a1") (PStr "../x.pdf") PNone PNone);
    reflexivity.
Defined.

(** A part named [../x.pdf] whose removal is refused leaves its file beside
    the scratch directory, not in it; when the write is cut short, what is
    left there is the part of the attachment that got through. *)
Example escaping_name_creates_file_outside_scratch :
  let run fail :=
    exec (process_attachment (Sample.env fail) Sample.gmail Sample.drive (PStr "m1")
            (Sample.pdf_part "../x.pdf" "a1")) Sample.world0 in
  map_to_list (fs (run Sample.remove_fails))
  = [(["x.pdf"], list_byte_of_string "%PDF a1")]
  /\ map_to_list (scratch_files (fs (run Sample.remove_fails))) = []
  /\ map_to_list (fs (run Sample.write_fails)) = [(["x.pdf"], list_byte_of_string "%PDF")]
  /\ map_to_list (scratch_files (fs (run Sample.write_fails))) = [].
Proof. repeat split; vm_compute; reflexivity. Qed.

(** A file already present under the name of an attachment is replaced by
    the attachment and then removed with it. *)
Example same_name_replaces_existing_file :
  let env := Sample.env Sample.no_failure in
  let w := {| fs := {[ ["invoices"; "january.pdf"] := list_byte_of_string "kept" ]};
              log := []; trace := [] |} in
  let w' := exec (process_attachment env Sample.gmail Sample.drive (PStr "m1")
                    (Sample.pdf_part "january.pdf" "a1")) w in
  map_to_list (fs w') = []
  /\ Exists (fun ev => exists media,
               fst ev = FilesCreate (PStr "january.pdf") [Some "folder-id"] media "id"
               /\ media_content media = list_byte_of_string "%PDF a1") (trace w').
Proof.
  split; [vm_compute; reflexivity|].
  vm_compute. do 4 apply Exists_cons_tl. apply Exists_cons_hd.
  eexists. split; reflexivity.
Qed.

(** Two parts of one message with the same name: the file the first one
    left behind, its removal having been refused, is overwritten by the
    second. *)
Example second_attachment_overwrites_the_first :
  let env := Sample.env Sample.remove_fails in
  let parts := [Sample.pdf_part "invoice.pdf" "a1"; Sample.pdf_part "invoice.pdf" "a2"] in
  let first := exec (process_attachment env Sample.gmail Sample.drive (PStr "m1")
                       (Sample.pdf_part "invoice.pdf" "a1")) Sample.world0 in
  let both := exec (for_each parts (each_part env Sample.gmail Sample.drive (PStr "m1")))
                Sample.world0 in
  map_to_list (fs first) = [(["invoices"; "invoice.pdf"], list_byte_of_string "%PDF a1")]
  /\ map_to_list (fs both) = [(["invoices"; "invoice.pdf"], list_byte_of_string "%PDF a2")].
Proof. split; vm_compute; reflexivity. Qed.

(** ** Which parts are downloaded *)

Lemma process_attachment_trace env gs ds msg_id part w :
  exists evs,
    trace (exec (process_attachment env gs ds msg_id part) w) = trace w ++ evs
    /\ Forall (downloads_for msg_id part) evs.
Proof.
  unfold exec, process_attachment, has_nested. unfold_monad.
  repeat (case_match; simplify_eq/=).
  all: try (autorewrite with world; rewrite <- ?app_assoc;
            first [ eexists; split; [reflexivity|]
                  | exists []; split; [by rewrite app_nil_r|] ];
            repeat constructor; unfold downloads_for; by eauto).
  all: match goal with
       | H : upload_to_drive _ _ _ _ = _ |- _ =>
           apply upload_to_drive_run in H as (? & Hfs & evs & Htr & Hevs)
       end; simplify_eq.
  all: autorewrite with world in Htr |- *; rewrite Htr, <- !app_assoc.
  all: eexists; (split; [reflexivity|]); cbn [app].
  all: repeat (apply Forall_cons; split; [unfold downloads_for; by eauto|]).
  all: apply Forall_app; split; [|by repeat constructor].
  all: eapply Forall_impl; [exact Hevs|].
  all: intros [r resp] (Hcall & _) Hdl; by destruct r.
Qed.

Lemma is_pdf_part_pure part w : snd (is_pdf_part part w) = w.
Proof. unfold is_pdf_part. unfold_monad. by repeat case_match. Qed.

Lemma is_pdf_part_selects part w :
  fst (is_pdf_part part w) = inr true -> pdf_named part.
Proof.
  unfold is_pdf_part, pdf_named. unfold_monad.
  destruct (Py.get part "filename" PNone) as [e|name] eqn:Hget; [done|].
  destruct (Py.truthy name) eqn:Htruthy; [|done].
  destruct (Py.getitem part "filename") as [e|filename] eqn:Hitem; [done|].
  destruct filename as [| | |s| |]; try done. cbn [Py.lower fst].
  intros [= Hends]. exists s. split; [done|]. split; [|done].
  intros ->. by destruct part; simplify_eq/=.
Qed.

Lemma download_justified_cons msg_id part items ev :
  download_justified msg_id items ev -> download_justified msg_id (part :: items) ev.
Proof.
  intros Hjust Hdl. destruct (Hjust Hdl) as (part' & Hin & Hrest).
  exists part'. split; [by apply list_elem_of_further | done].
Qed.

(** The loop of [process_single_email] over the parts of a message. *)
Lemma parts_loop_trace env gs ds msg_id items w :
  exists evs,
    trace (exec (for_each items (each_part env gs ds msg_id)) w) = trace w ++ evs
    /\ Forall (download_justified msg_id items) evs.
Proof.
  revert w. induction items as [|part items IH]; intros w.
  - exists []. split; [symmetry; apply app_nil_r | constructor].
  - unfold exec. cbn [for_each]. unfold bind at 1. unfold each_part at 1.
    unfold bind at 1.
    pose proof (is_pdf_part_pure part w) as Hpure.
    pose proof (is_pdf_part_selects part w) as Hsel.
    destruct (is_pdf_part part w) as [[e|selected] w0]; cbn [fst snd] in *; subst w0.
    + exists []. split; [symmetry; apply app_nil_r | constructor].
    + destruct selected.
      * rewrite (run_split (process_attachment env gs ds msg_id part)).
        rewrite process_attachment_returns.
        destruct (process_attachment_trace env gs ds msg_id part w) as (evs1 & Htr1 & Hevs1).
        destruct (IH (exec (process_attachment env gs ds msg_id part) w))
          as (evs2 & Htr2 & Hevs2).
        exists (evs1 ++ evs2). unfold exec in Htr2 |- *. rewrite Htr2.
        unfold exec in Htr1. rewrite Htr1, app_assoc. split; [done|].
        apply Forall_app. split.
        -- eapply Forall_impl; [exact Hevs1|].
           intros ev Hfor Hdl. exists part.
           split; [apply list_elem_of_here|]. split; [by apply Hsel | done].
        -- eapply Forall_impl; [exact Hevs2|]. apply download_justified_cons.
      * unfold ret at 1. destruct (IH w) as (evs & Htr & Hevs).
        exists evs. split; [done|].
        eapply Forall_impl; [exact Hevs|]. apply download_justified_cons.
Qed.

(** The calls of [process_single_email]: either the parts of the fetched
    message were visited, and every download is accounted for by one of
    them, or there was no download at all. *)
Lemma message_downloads env gs ds msg_id w :
  let w' := exec (process_single_email env gs ds msg_id) w in
  (exists message payload parts items,
      respond env (trace w) (MessagesGet "me" msg_id) = inr message
      /\ Py.getitem message "payload" = inr payload
      /\ Py.getitem payload "parts" = inr parts
      /\ Py.iter parts = inr items
      /\ Forall (download_justified msg_id items) (new_events w w'))
  \/ Forall (fun ev => is_download ev = false) (new_events w w').
Proof.
  unfold exec, process_single_email, has_nested. unfold_monad.
  repeat (case_match; simplify_eq/=).
  all: try (right; appended; by repeat constructor).
  all: left.
  all: match goal with
       | H : for_each ?items (each_part ?en ?g ?d ?m) ?wx = (_, ?wy) |- _ =>
           destruct (parts_loop_trace en g d m items wx) as (evs & Htr & Hevs);
           unfold exec in Htr; rewrite H in Htr; cbn [snd] in Htr
       end.
  all: do 4 eexists; (split; [reflexivity|]); (repeat (split; [eassumption|])).
  all: unfold new_events; autorewrite with world; rewrite Htr; autorewrite with world.
  all: rewrite <- app_assoc, drop_app_length; cbn [app].
  all: constructor; [done | exact Hevs].
Qed.

(** [C3] Every attachment download made while processing a message is the
    download of an attachment identified by a part of that message which
    has a non-empty filename whose lowercase form ends in [.pdf]; a part
    without such a filename is therefore never the cause of a download. *)
Theorem only_pdf_named_parts_are_downloaded env gs ds msg_id w ev :
  let w' := exec (process_single_email env gs ds msg_id) w in
  ev ∈ new_events w w' ->
  is_download ev = true ->
  exists message payload parts items part body attachment_id,
    respond env (trace w) (MessagesGet "me" msg_id) = inr message
    /\ Py.getitem message "payload" = inr payload
    /\ Py.getitem payload "parts" = inr parts
    /\ Py.iter parts = inr items
    /\ part ∈ items
    /\ pdf_named part
    /\ Py.getitem part "body" = inr body
    /\ Py.getitem body "attachmentId" = inr attachment_id
    /\ fst ev = AttachmentsGet "me" msg_id attachment_id.
Proof.
  intros w' Hin Hdl.
  destruct (message_downloads env gs ds msg_id w)
    as [(message & payload & parts & items & Hfetch & Hpayload & Hparts & Hiter & Hall)
       | Hnone].
  - fold w' in Hall. rewrite Forall_forall in Hall.
    destruct (Hall ev Hin Hdl) as (part & Hpart & Hpdf & Hfor).
    destruct (Hfor Hdl) as (body & attachment_id & Hbody & Hid & Hev).
    by exists message, payload, parts, items, part, body, attachment_id.
  - fold w' in Hnone. rewrite Forall_forall in Hnone.
    specialize (Hnone ev Hin). congruence.
Qed.

Lemma only_pdf_named_parts_are_downloaded_witness :
  exists message payload parts items part body attachment_id,
    respond (Sample.env Sample.no_failure) (trace Sample.world0)
      (MessagesGet "me" (PStr "m5")) = inr message
    /\ Py.getitem message "payload" = inr payload
    /\ Py.getitem payload "parts" = inr parts
    /\ Py.iter parts = inr items
    /\ part ∈ items
    /\ pdf_named part
    /\ Py.getitem part "body" = inr body
    /\ Py.getitem body "attachmentId" = inr attachment_id
    /\ fst (AttachmentsGet "me" (PStr "m5") (PStr "a5"),
            (inr (PDict [("data", PStr "%PDF a5")]) : result pyval))
       = AttachmentsGet "me" (PStr "m5") attachment_id.
Proof.
  apply (only_pdf_named_parts_are_downloaded (Sample.env Sample.no_failure)
           Sample.gmail Sample.drive (PStr "m5") Sample.world0).
  - vm_compute. apply list_elem_of_further, list_elem_of_here.
  - reflexivity.
Defined.

(** A message none of whose parts is PDF-named causes no download. *)
Corollary no_pdf_named_part_no_download env gs ds msg_id w message payload parts items :
  respond env (trace w) (MessagesGet "me" msg_id) = inr message ->
  Py.getitem message "payload" = inr payload ->
  Py.getitem payload "parts" = inr parts ->
  Py.iter parts = inr items ->
  Forall (fun part => ~ pdf_named part) items ->
  Forall (fun ev => is_download ev = false)
    (new_events w (exec (process_single_email env gs ds msg_id) w)).
Proof.
  intros Hfetch Hpayload Hparts Hiter Hnone.
  destruct (message_downloads env gs ds msg_id w)
    as [(message' & payload' & parts' & items' & H1 & H2 & H3 & H4 & Hall) | Hno];
    [|done].
  rewrite Hfetch in H1. injection H1 as <-.
  rewrite Hpayload in H2. injection H2 as <-.
  rewrite Hparts in H3. injection H3 as <-.
  rewrite Hiter in H4. injection H4 as <-.
  eapply Forall_impl; [exact Hall|]. intros ev Hjust.
  destruct (is_download ev) eqn:Hdl; [|done].
  destruct (Hjust Hdl) as (part & Hpart & Hpdf & _).
  rewrite Forall_forall in Hnone. by destruct (Hnone part).
Qed.

(** Of the two parts of message [m5], only [summary.pdf] is downloaded;
    [notes.txt] is not. *)
Example text_part_is_not_downloaded :
  filter (fun ev => is_download ev = true)
    (new_events Sample.world0
       (exec (process_single_email (Sample.env Sample.no_failure) Sample.gmail
                Sample.drive (PStr "m5")) Sample.world0))
  = [(AttachmentsGet "me" (PStr "m5") (PStr "a5"),
      inr (PDict [("data", PStr "%PDF a5")]))].
Proof. vm_compute. reflexivity. Qed.


(** ** Messages of one part *)







(** ** Failures are logged and stay local *)

Lemma failures_logged_nil entries : failures_logged [] entries.
Proof. intros ev e Hin. by apply elem_of_nil in Hin. Qed.

Lemma failures_logged_app evs1 evs2 entries1 entries2 :
  failures_logged evs1 entries1 ->
  failures_logged evs2 entries2 ->
  failures_logged (evs1 ++ evs2) (entries1 ++ entries2).
Proof.
  intros H1 H2 ev e [Hin|Hin]%elem_of_app Hfail.
  - destruct (H1 ev e Hin Hfail) as [c Hc]. exists c. apply elem_of_app. by left.
  - destruct (H2 ev e Hin Hfail) as [c Hc]. exists c. apply elem_of_app. by right.
Qed.

Lemma logs_its_failures_refl w : logs_its_failures w w.
Proof.
  exists [], []. rewrite !app_nil_r. repeat split. apply failures_logged_nil.
Qed.

Lemma logs_its_failures_trans w1 w2 w3 :
  logs_its_failures w1 w2 -> logs_its_failures w2 w3 -> logs_its_failures w1 w3.
Proof.
  intros (evs1 & en1 & Ht1 & Hl1 & H1) (evs2 & en2 & Ht2 & Hl2 & H2).
  exists (evs1 ++ evs2), (en1 ++ en2).
  rewrite Ht2, Ht1, Hl2, Hl1, !app_assoc. repeat split.
  by apply failures_logged_app.
Qed.

Lemma append_assoc (a b c : string) : (a +:+ b) +:+ c = a +:+ (b +:+ c).
Proof.
  induction a as [|ch a IH]; [done|].
  change (String ch ((a +:+ b) +:+ c) = String ch (a +:+ (b +:+ c))). by rewrite IH.
Qed.

Lemma logs_its_failures_intro w w' evs entries :
  trace w' = trace w ++ evs ->
  log w' = log w ++ entries ->
  failures_logged evs entries ->
  logs_its_failures w w'.
Proof. intros. by exists evs, entries. Qed.

(** Settles [failures_logged] on explicit lists. *)
Ltac settle_logged :=
  let ev := fresh "ev" in
  let e := fresh "e" in
  let Hin := fresh "Hin" in
  let Hfail := fresh "Hfail" in
  cbn [app]; intros ev e Hin Hfail;
  rewrite ?elem_of_cons, ?elem_of_nil in Hin;
  destruct_or?; unfold failed in Hfail; simplify_eq/=; try done;
  first
    [ eexists; rewrite <- ?append_assoc;
      first [ apply list_elem_of_here
            | apply list_elem_of_further, list_elem_of_here
            | do 2 apply list_elem_of_further; apply list_elem_of_here ]
    | idtac ].

(** Reads off what was appended to the trace or to the log. *)
Ltac read_appended :=
  autorewrite with world; rewrite <- ?app_assoc;
  first [ reflexivity | symmetry; apply app_nil_r ].

Lemma upload_to_drive_logs env ds filename w :
  logs_its_failures w (exec (upload_to_drive env ds filename) w).
Proof.
  unfold exec, upload_to_drive. unfold_monad.
  repeat (case_match; simplify_eq/=);
    (eapply logs_its_failures_intro; [read_appended | read_appended | settle_logged]).
Qed.

Lemma process_attachment_logs env gs ds msg_id part w :
  logs_its_failures w (exec (process_attachment env gs ds msg_id part) w).
Proof.
  unfold exec, process_attachment, has_nested. unfold_monad.
  repeat (case_match; simplify_eq/=).
  all: try (eapply logs_its_failures_intro; [read_appended | read_appended | settle_logged]).
  all: match goal with
       | H : upload_to_drive ?en ?d ?f ?wx = (_, ?wy) |- _ =>
           let Hup := fresh "Hup" in
           pose proof (upload_to_drive_logs en d f wx) as Hup;
           unfold exec in Hup; rewrite H in Hup; cbn [snd] in Hup;
           apply (logs_its_failures_trans _ wx);
           [|apply (logs_its_failures_trans _ wy); [exact Hup|]]
       end.
  all: eapply logs_its_failures_intro; [read_appended | read_appended | settle_logged].
Qed.

(** The loop over the parts of a message. *)
Lemma parts_loop_logs env gs ds msg_id items w :
  logs_its_failures w (exec (for_each items (each_part env gs ds msg_id)) w).
Proof.
  revert w. induction items as [|part items IH]; intros w.
  - apply logs_its_failures_refl.
  - unfold exec. cbn [for_each]. unfold bind at 1. unfold each_part at 1.
    unfold bind at 1.
    pose proof (is_pdf_part_pure part w) as Hpure.
    destruct (is_pdf_part part w) as [[e|selected] w0]; cbn [fst snd] in *; subst w0.
    + apply logs_its_failures_refl.
    + destruct selected.
      * rewrite (run_split (process_attachment env gs ds msg_id part)).
        rewrite process_attachment_returns.
        eapply logs_its_failures_trans; [apply process_attachment_logs|apply IH].
      * apply IH.
Qed.

Lemma process_single_email_logs env gs ds msg_id w :
  logs_its_failures w (exec (process_single_email env gs ds msg_id) w).
Proof.
  unfold exec, process_single_email, has_nested. unfold_monad.
  repeat (case_match; simplify_eq/=).
  all: try (eapply logs_its_failures_intro; [read_appended | read_appended | settle_logged]).
  all: match goal with
       | H : for_each ?items (each_part ?en ?g ?d ?m) ?wx = (_, ?wy) |- _ =>
           let Hloop := fresh "Hloop" in
           pose proof (parts_loop_logs en g d m items wx) as Hloop;
           unfold exec in Hloop; rewrite H in Hloop; cbn [snd] in Hloop;
           apply (logs_its_failures_trans _ wx);
           [|apply (logs_its_failures_trans _ wy); [exact Hloop|]]
       end.
  all: eapply logs_its_failures_intro; [read_appended | read_appended | settle_logged].
Qed.

(** The loop of [process_emails]: whatever happens to a message, the loop
    goes on with the next one from the world that message left. *)
Lemma messages_loop_fold env gs ds messages ids w :
  Forall2 (fun message id => Py.getitem message "id" = inr id) messages ids ->
  for_each messages (each_message env gs ds) w
  = (inr tt, fold_left (fun w id => exec (process_single_email env gs ds id) w) ids w).
Proof.
  intros Hids. revert w.
  induction Hids as [|message id messages ids Hid _ IH]; intros w; [done|].
  cbn [for_each fold_left]. unfold bind at 1. unfold each_message at 1.
  unfold bind at 1, lift at 1. rewrite Hid.
  rewrite (run_split (process_single_email env gs ds id)).
  rewrite process_single_email_returns. apply IH.
Qed.









(** The whole job on that mailbox: the second download raises, the first
    and third invoices are uploaded, and the job completes. *)
Example three_messages_second_download_fails :
  let w' := exec (main (Sample.env Sample.second_download_fails)) Sample.world0 in
  outcome (main (Sample.env Sample.second_download_fails)) Sample.world0 = inr tt
  /\ log w'
     = [(INFO, "Starting invoice processing job");
        (INFO, "File january.pdf uploaded successfully, ID: drive:january.pdf");
        (ERROR, "Error processing attachment: 500 backend error");
        (INFO, "File march.pdf uploaded successfully, ID: drive:march.pdf");
        (INFO, "Completed invoice processing job")]
  /\ map_to_list (fs w') = [].
Proof. repeat split; vm_compute; reflexivity. Qed.

(** ** The search call *)

(** The loop over the messages only adds to the trace. *)
Lemma messages_loop_extends env gs ds items w :
  exists evs,
    trace (exec (for_each items (each_message env gs ds)) w) = trace w ++ evs.
Proof.
  revert w. induction items as [|message items IH]; intros w.
  - exists []. symmetry. apply app_nil_r.
  - unfold exec. cbn [for_each]. unfold bind at 1. unfold each_message at 1.
    unfold bind at 1, lift at 1.
    destruct (Py.getitem message "id") as [e|id].
    + exists []. symmetry. apply app_nil_r.
    + rewrite (run_split (process_single_email env gs ds id)).
      rewrite process_single_email_returns.
      destruct (process_single_email_logs env gs ds id w) as (evs1 & _ & Htr1 & _).
      destruct (IH (exec (process_single_email env gs ds id) w)) as (evs2 & Htr2).
      exists (evs1 ++ evs2). unfold exec in Htr2 |- *.
      rewrite Htr2. unfold exec in Htr1. by rewrite Htr1, app_assoc.
Qed.

(** Once both services are obtained, the next call of [process_emails] is
    the search, made for user [me] with [query]. *)
Lemma search_call_carries_query env w gs w1 ds w2 :
  get_google_service env "gmail" "v1" None w = (inr gs, w1) ->
  get_google_service env "drive" "v3" None w1 = (inr ds, w2) ->
  exists evs,
    trace (exec (process_emails env) w)
    = trace w2
      ++ (MessagesList "me" query, respond env (trace w2) (MessagesList "me" query))
         :: evs.
Proof.
  intros Hgmail Hdrive. unfold exec, process_emails, try_except.
  unfold bind at 1. rewrite Hgmail. unfold bind at 1. rewrite Hdrive.
  unfold bind at 1, call at 1.
  destruct (respond env (trace w2) (MessagesList "me" query)) as [e|results];
    [exists []; by unfold logger_error|].
  unfold bind at 1, lift at 1.
  destruct (Py.get results "messages" (PList [])) as [e|messages];
    [exists []; by unfold logger_error|].
  unfold bind at 1, lift at 1.
  destruct (Py.iter messages) as [e|items]; [exists []; by unfold logger_error|].
  destruct (messages_loop_extends env gs ds items
              (add_event (MessagesList "me" query, inr results) w2)) as (evs & Htr).
  rewrite (run_split (for_each items (each_message env gs ds))).
  exists evs.
  destruct (outcome _ _); unfold logger_error; cbn [snd]; autorewrite with world;
    rewrite Htr; autorewrite with world; by rewrite <- app_assoc.
Qed.

(** ** From one attachment to a whole run

    A relation between the world before and the world after that holds of
    doing nothing, composes, is kept by logging and by the calls made
    outside [process_attachment], and holds of [process_attachment], holds
    of every function above it. *)

Section Lifting.

Variable env : Env.
Variable R : World -> World -> Prop.

Hypothesis R_refl : forall w, R w w.
Hypothesis R_trans : forall w1 w2 w3, R w1 w2 -> R w2 w3 -> R w1 w3.
Hypothesis R_log : forall w entry, R w (add_log entry w).
Hypothesis R_fetch :
  forall w id answer, R w (add_event (MessagesGet "me" id, answer) w).
Hypothesis R_control :
  forall w ev, control_call ev -> is_message_fetch ev = false -> R w (add_event ev w).
Hypothesis R_attachment :
  forall gs ds msg_id part w, R w (exec (process_attachment env gs ds msg_id part) w).

(** Peels the log entries and the control calls off the world reached. *)
Ltac climb :=
  repeat first
    [ apply R_refl
    | match goal with
      | |- R _ (add_log _ _) => eapply R_trans; [|apply R_log]
      | |- R _ (add_event _ _) =>
          eapply R_trans; [|first [apply R_fetch | apply R_control; cbn; auto]]
      end ].

Lemma lift_for_each (body : pyval -> M unit) items w :
  (forall x w0, R w0 (exec (body x) w0)) ->
  R w (exec (for_each items body) w).
Proof.
  intros Hbody. revert w. induction items as [|x items IH]; intros w.
  - apply R_refl.
  - unfold exec. cbn [for_each]. unfold bind.
    pose proof (Hbody x w) as Hx. unfold exec in Hx.
    destruct (body x w) as [[e|[]] w1]; cbn [snd] in *; [done|].
    eapply R_trans; [exact Hx | apply IH].
Qed.

Lemma lift_each_part gs ds msg_id part w :
  R w (exec (each_part env gs ds msg_id part) w).
Proof.
  unfold exec, each_part, bind.
  pose proof (is_pdf_part_pure part w) as Hpure.
  destruct (is_pdf_part part w) as [[e|selected] w0]; cbn [snd] in *; subst w0.
  - apply R_refl.
  - destruct selected; [apply R_attachment | apply R_refl].
Qed.

Lemma lift_process_single_email gs ds msg_id w :
  R w (exec (process_single_email env gs ds msg_id) w).
Proof.
  unfold exec, process_single_email, has_nested. unfold_monad.
  repeat (case_match; simplify_eq/=).
  all: try solve [climb].
  all: match goal with
       | H : for_each ?items ?body ?wx = (_, ?wy) |- _ =>
           let Hloop := fresh "Hloop" in
           pose proof (lift_for_each body items wx (lift_each_part gs ds msg_id)) as Hloop;
           unfold exec in Hloop; rewrite H in Hloop; cbn [snd] in Hloop
       end.
  all: first [ eapply R_trans; [|exact Hloop]; solve [climb]
             | eapply R_trans; [|apply R_log]; eapply R_trans; [|exact Hloop];
               solve [climb] ].
Qed.

Lemma lift_each_message gs ds message w :
  R w (exec (each_message env gs ds message) w).
Proof.
  unfold exec, each_message, bind, lift.
  destruct (Py.getitem message "id"); [apply R_refl|].
  apply lift_process_single_email.
Qed.

Lemma lift_process_emails w : R w (exec (process_emails env) w).
Proof.
  unfold exec, process_emails, get_google_service. unfold_monad.
  repeat (case_match; simplify_eq/=).
  all: try solve [climb].
  all: match goal with
       | H : for_each ?items (each_message ?en ?g ?d) ?wx = (_, ?wy) |- _ =>
           let Hloop := fresh "Hloop" in
           pose proof (lift_for_each (each_message en g d) items wx
                         (lift_each_message g d)) as Hloop;
           unfold exec in Hloop; rewrite H in Hloop; cbn [snd] in Hloop
       end.
  all: first [ eapply R_trans; [|exact Hloop]; solve [climb]
             | eapply R_trans; [|apply R_log]; eapply R_trans; [|exact Hloop];
               solve [climb] ].
Qed.

Lemma lift_main w : R w (exec (main env) w).
Proof.
  unfold exec, main, os_makedirs.
  unfold bind at 1. unfold logger_info at 1.
  unfold bind at 1. unfold bind at 1. unfold call at 1.
  destruct (respond env _ (Makedirs "invoices" true)) as [e|v]; cbn [snd].
  - climb.
  - unfold ret at 1. unfold bind at 1.
    rewrite (run_split (process_emails env)), process_emails_returns.
    unfold logger_info. cbn [snd].
    eapply R_trans; [|apply R_log].
    eapply R_trans; [|apply lift_process_emails]. climb.
Qed.

End Lifting.

(** ** Conforming calls *)

Lemma emits_intro P w w' evs :
  trace w' = trace w ++ evs -> Forall P evs -> emits P w w'.
Proof. intros. by exists evs. Qed.

Lemma emits_refl P w : emits P w w.
Proof. exists []. by rewrite app_nil_r. Qed.

Lemma emits_trans P w1 w2 w3 : emits P w1 w2 -> emits P w2 w3 -> emits P w1 w3.
Proof.
  intros (evs1 & Ht1 & H1) (evs2 & Ht2 & H2).
  exists (evs1 ++ evs2). rewrite Ht2, Ht1, app_assoc. split; [done|].
  by apply Forall_app.
Qed.

Lemma emits_log P w entry : emits P w (add_log entry w).
Proof. exists []. by rewrite app_nil_r. Qed.

Lemma emits_event (P : event -> Prop) w ev : P ev -> emits P w (add_event ev w).
Proof. intros Hev. exists [ev]. split; [done|]. by repeat constructor. Qed.

Lemma emits_impl (P Q : event -> Prop) w w' :
  (forall ev, P ev -> Q ev) -> emits P w w' -> emits Q w w'.
Proof.
  intros Himpl (evs & Htr & Hevs). exists evs. split; [done|].
  by eapply Forall_impl.
Qed.

(** Settles that explicit calls are attachment calls. *)
Ltac settle_attachment_calls :=
  cbn [app];
  repeat (apply Forall_cons; split; [cbn; eauto 10|]);
  try by constructor.

Lemma upload_to_drive_emits env ds filename w :
  emits (attachment_call env) w (exec (upload_to_drive env ds filename) w).
Proof.
  unfold exec, upload_to_drive. unfold_monad.
  repeat (case_match; simplify_eq/=);
    (eapply emits_intro; [read_appended | settle_attachment_calls]).
Qed.

Lemma process_attachment_emits env gs ds msg_id part w :
  emits (attachment_call env) w (exec (process_attachment env gs ds msg_id part) w).
Proof.
  unfold exec, process_attachment, has_nested. unfold_monad.
  repeat (case_match; simplify_eq/=).
  all: try (eapply emits_intro; [read_appended | settle_attachment_calls]).
  all: match goal with
       | H : upload_to_drive ?en ?d ?f ?wx = (_, ?wy) |- _ =>
           let Hup := fresh "Hup" in
           pose proof (upload_to_drive_emits en d f wx) as Hup;
           unfold exec in Hup; rewrite H in Hup; cbn [snd] in Hup;
           apply (emits_trans _ _ wx);
           [|apply (emits_trans _ _ wy); [exact Hup|]]
       end.
  all: eapply emits_intro; [read_appended | settle_attachment_calls].
Qed.

Lemma main_conforms env w : emits (conforms env) w (exec (main env) w).
Proof.
  apply lift_main.
  - apply emits_refl.
  - apply emits_trans.
  - apply emits_log.
  - intros w0 id answer. apply emits_event. by left.
  - intros w0 ev Hev _. apply emits_event. by left.
  - intros gs ds msg_id part w0.
    eapply emits_impl; [|apply process_attachment_emits]. intros ev Hev. by right.
Qed.

(** ** Files left behind *)

Lemma tidy_intro w w' evs :
  trace w' = trace w ++ evs ->
  (cleanly evs -> no_new_file (fs w) (fs w')) ->
  tidy w w'.
Proof. intros. by exists evs. Qed.

Lemma tidy_refl w : tidy w w.
Proof. exists []. rewrite app_nil_r. split; [done|]. by intros _ key content. Qed.

Lemma tidy_trans w1 w2 w3 : tidy w1 w2 -> tidy w2 w3 -> tidy w1 w3.
Proof.
  intros (evs1 & Ht1 & H1) (evs2 & Ht2 & H2).
  exists (evs1 ++ evs2). rewrite Ht2, Ht1, app_assoc. split; [done|].
  intros [Hok1 Hok2]%Forall_app key content Hkey.
  by apply H1, H2.
Qed.

Lemma tidy_log w entry : tidy w (add_log entry w).
Proof. exists []. rewrite app_nil_r. split; [done|]. by intros _ key content. Qed.

Lemma tidy_control w ev : control_call ev -> tidy w (add_event ev w).
Proof. intros _. exists [ev]. split; [done|]. by intros _ key content. Qed.

Lemma process_attachment_tidy env gs ds msg_id part w :
  tidy w (exec (process_attachment env gs ds msg_id part) w).
Proof.
  unfold exec, process_attachment, has_nested. unfold_monad.
  repeat (case_match; simplify_eq/=).
  all: try match goal with
       | H : upload_to_drive _ _ _ _ = _ |- _ =>
           apply upload_to_drive_run in H as (? & Hfs & evs & Htr & Hevs);
           simplify_eq; autorewrite with world in Hfs, Htr
       end.
  all: eapply tidy_intro;
    [ autorewrite with world; rewrite ?Htr; autorewrite with world;
      rewrite <- ?app_assoc; first [reflexivity | symmetry; apply app_nil_r] |].
  all: intros Hok key content; unfold no_new_file; autorewrite with world;
    rewrite ?Hfs, ?delete_insert_eq.
  all: try done.
  all: try (rewrite lookup_delete_Some; by intros [_ ?]).
  all: try (exfalso; unfold cleanly in Hok; cbn [app] in Hok;
            repeat first [ apply Forall_cons in Hok as [[? ?] Hok]
                         | apply Forall_app in Hok as [_ Hok] ];
            simplify_eq/=).
  all: match goal with
       | H : fs _ !! _ = None |- _ => rewrite Hfs, lookup_insert_eq in H; done
       end.
Qed.

Lemma tidy_main env w : tidy w (exec (main env) w).
Proof.
  apply (lift_main env).
  - apply tidy_refl.
  - apply tidy_trans.
  - apply tidy_log.
  - intros w0 id answer. by apply tidy_control.
  - intros w0 ev Hev _. by apply tidy_control.
  - apply process_attachment_tidy.
Qed.

Lemma no_new_file_scratch (files files' : filesystem) :
  no_new_file files files' ->
  scratch_files files = ∅ -> scratch_files files' = ∅.
Proof.
  unfold scratch_files. intros Hsub Hempty.
  apply map_empty_filter. intros key content Hkey.
  apply map_empty_filter in Hempty. by apply (Hempty key content), Hsub.
Qed.

(** ** Whole runs of the job *)

(** [X1] Every call made in a run of the job has the arguments the program
    fixes: the user is [me], the search is made with [query], the scratch
    directory is [invoices], every local path is [invoices/] followed by a
    name, every upload is a resumable PDF upload into the configured folder
    asking for the [id] field, authorization goes through the interactive
    flow on [credentials.json] with [SCOPES]; and credentials are never
    refreshed. *)
Theorem every_call_of_a_run_conforms env w ev :
  ev ∈ new_events w (exec (main env) w) ->
  conforms env ev /\ fst ev <> CredsRefresh.
Proof.
  intros Hin.
  destruct (main_conforms env w) as (evs & Htr & Hall).
  rewrite (new_events_app _ _ _ Htr) in Hin.
  rewrite Forall_forall in Hall. specialize (Hall ev Hin).
  split; [done|]. by destruct Hall as [Hc|Ha]; destruct ev as [[] answer].
Qed.

Lemma every_call_of_a_run_conforms_witness :
  let ev : event :=
    (FilesCreate (PStr "january.pdf") [Some "folder-id"]
       {| media_filename := "invoices/january.pdf";
          media_mimetype := "application/pdf";
          media_resumable := true;
          media_content := list_byte_of_string "%PDF a1" |} "id",
     inr (PDict [("id", PStr "drive:january.pdf")])) in
  conforms (Sample.env Sample.no_failure) ev /\ fst ev <> CredsRefresh.
Proof.
  apply (every_call_of_a_run_conforms (Sample.env Sample.no_failure) Sample.world0).
  vm_compute. do 13 apply list_elem_of_further. apply list_elem_of_here.
Defined.

(** [X3] In a run of the job in which no write and no removal raises, no
    local file appears or changes: every file present afterwards was
    present before with the same content, and a scratch directory that was
    empty is empty again. *)
Theorem clean_run_leaves_no_file env w :
  let w' := exec (main env) w in
  cleanly (new_events w w') ->
  no_new_file (fs w) (fs w')
  /\ (scratch_files (fs w) = ∅ -> scratch_files (fs w') = ∅).
Proof.
  intros w' Hok. destruct (tidy_main env w) as (evs & Htr & Htidy).
  fold w' in Htr, Htidy. rewrite (new_events_app _ _ _ Htr) in Hok.
  split; [by apply Htidy|]. by apply no_new_file_scratch, Htidy.
Qed.

Lemma clean_run_leaves_no_file_witness :
  let w' := exec (main (Sample.env Sample.upload_fails)) Sample.world0 in
  no_new_file (fs Sample.world0) (fs w')
  /\ (scratch_files (fs Sample.world0) = ∅ -> scratch_files (fs w') = ∅).
Proof.
  apply (clean_run_leaves_no_file (Sample.env Sample.upload_fails) Sample.world0).
  vm_compute. repeat constructor.
Defined.

(** With a removal that raises, or a write that raises, files are left. *)
Example unclean_runs_leave_files :
  let run fail := exec (main (Sample.env fail)) Sample.world0 in
  map fst (map_to_list (fs (run Sample.remove_fails)))
  = [["invoices"; "january.pdf"]; ["invoices"; "march.pdf"]; ["invoices"; "february.PDF"]]
  /\ map snd (map_to_list (fs (run Sample.write_fails)))
     = [list_byte_of_string "%PDF"; list_byte_of_string "%PDF"; list_byte_of_string "%PDF"].
Proof. split; vm_compute; reflexivity. Qed.

Lemma main_run env w :
  main env w
  = match respond env (trace w) (Makedirs "invoices" true) with
    | inl e =>
        (inl e,
         add_event (Makedirs "invoices" true, inl e)
           (add_log (INFO, "Starting invoice processing job") w))
    | inr v =>
        (inr tt,
         add_log (INFO, "Completed invoice processing job")
           (exec (process_emails env)
              (add_event (Makedirs "invoices" true, inr v)
                 (add_log (INFO, "Starting invoice processing job") w))))
    end.
Proof.
  unfold main, os_makedirs.
  unfold bind at 1. unfold logger_info at 1.
  unfold bind at 1. unfold bind at 1. unfold call at 1.
  autorewrite with world.
  destruct (respond env (trace w) (Makedirs "invoices" true)) as [e|v]; [done|].
  unfold ret at 1. unfold bind at 1.
  rewrite (run_split (process_emails env)), process_emails_returns. done.
Qed.

(** [X4] The job body raises exactly when creating the scratch directory
    raises, and then with that exception, having made no other call and
    logged only its starting message; in every other case it returns
    normally. *)
Theorem main_raises_exactly_when_makedirs_does env w :
  let w' := exec (main env) w in
  outcome (main env) w
  = match respond env (trace w) (Makedirs "invoices" true) with
    | inl e => inl e
    | inr _ => inr tt
    end
  /\ forall e,
       respond env (trace w) (Makedirs "invoices" true) = inl e ->
       new_events w w' = [(Makedirs "invoices" true, inl e)]
       /\ new_log w w' = [(INFO, "Starting invoice processing job")].
Proof.
  intros w'. subst w'. unfold outcome, exec. rewrite main_run.
  destruct (respond env (trace w) (Makedirs "invoices" true)) as [e|v].
  - split; [done|]. intros e' [= <-]. cbn [snd]. split; by appended.
  - split; [done|]. intros e' [=].
Qed.

(** ** Obtaining a service *)

(** [X5] [get_google_service] refreshes credentials only when they are
    invalid, expired and hold a refresh token, and runs the interactive
    flow only when there are no credentials or they are invalid and cannot
    be refreshed; valid credentials lead to neither, and the two routes
    exclude each other. *)
Theorem authorization_route_follows_credentials env name version creds w ev :
  ev ∈ new_events w (exec (get_google_service env name version creds) w) ->
  (fst ev = CredsRefresh -> refreshable creds)
  /\ (is_interactive_flow ev = true -> needs_interactive_flow creds)
  /\ (fst ev = CredsRefresh \/ is_interactive_flow ev = true
      \/ fst ev = Build name version).
Proof.
  unfold exec, get_google_service, refreshable, needs_interactive_flow.
  destruct creds as [[[] [] token]|]; cbn [valid expired refresh_token negb andb];
    try destruct (Py.truthy token) eqn:Htoken; unfold_monad;
    repeat (case_match; simplify_eq/=); appended;
    rewrite ?elem_of_cons, ?elem_of_nil; intros Hin; destruct_or?; simplify_eq/=;
    try done; repeat split; try done; intros; try done; auto.
Qed.

Lemma authorization_route_follows_credentials_witness :
  let creds := Some {| valid := false; expired := true; refresh_token := PStr "token" |} in
  let ev : event := (CredsRefresh, inr PNone) in
  (fst ev = CredsRefresh -> refreshable creds)
  /\ (is_interactive_flow ev = true -> needs_interactive_flow creds)
  /\ (fst ev = CredsRefresh \/ is_interactive_flow ev = true
      \/ fst ev = Build "gmail" "v1").
Proof.
  apply (authorization_route_follows_credentials (Sample.env Sample.no_failure)
           "gmail" "v1" _ Sample.world0).
  vm_compute. apply list_elem_of_here.
Defined.

(** [X6] [get_google_service] stops at the first step that raises and
    raises its exception; it returns a handle only after every step
    returned, the last of them being [build], and the handle is for the
    service and version asked.  In neither case is a file or the log
    touched. *)
Theorem service_is_built_last env name version creds w :
  let w' := exec (get_google_service env name version creds) w in
  let evs := new_events w w' in
  match outcome (get_google_service env name version creds) w with
  | inr handle =>
      handle = Service name version
      /\ Forall succeeded evs
      /\ exists answer, last evs = Some (Build name version, inr answer)
  | inl e =>
      Forall succeeded (removelast evs)
      /\ exists r, last evs = Some (r, inl e)
  end
  /\ fs w' = fs w /\ log w' = log w.
Proof.
  unfold outcome, exec, get_google_service.
  destruct creds as [[[] [] token]|]; cbn [valid expired refresh_token negb andb];
    try destruct (Py.truthy token); unfold_monad;
    repeat (case_match; simplify_eq/=); appended;
    (split; [|done]); repeat split; eauto; by repeat constructor.
Qed.

(** ** Uploading one file *)

(** [X7] [upload_to_drive] asks the storage service to create a file only
    after the local file [invoices/<filename>] was opened for reading, and
    then under the given name, in the configured folder, with the content
    the local file has; a missing local file therefore means no request to
    the service.  It never changes a local file. *)
Theorem upload_sends_the_local_file env ds filename w name parents media fields answer :
  let path := "invoices/" +:+ Py.str filename in
  let w' := exec (upload_to_drive env ds filename) w in
  (FilesCreate name parents media fields, answer) ∈ new_events w w' ->
  name = filename
  /\ parents = [DRIVE_FOLDER_ID env]
  /\ fs w !! Path.resolve path = Some (media_content media)
  /\ (exists opened, (MediaFileUpload path "application/pdf" true, inr opened)
                       ∈ new_events w w')
  /\ fs w' = fs w.
Proof.
  unfold exec, upload_to_drive. unfold_monad.
  repeat (case_match; simplify_eq/=); appended;
    rewrite ?elem_of_cons, ?elem_of_nil; intros Hin; destruct_or?; simplify_eq/=;
    repeat split; try done; eexists; apply list_elem_of_here.
Qed.

Lemma upload_sends_the_local_file_witness :
  let env := Sample.env Sample.no_failure in
  let w := {| fs := {[ ["invoices"; "bill.pdf"] := list_byte_of_string "%PDF" ]};
              log := []; trace := [] |} in
  let media := {| media_filename := "invoices/bill.pdf";
                  media_mimetype := "application/pdf";
                  media_resumable := true;
                  media_content := list_byte_of_string "%PDF" |} in
  let w' := exec (upload_to_drive env Sample.drive (PStr "bill.pdf")) w in
  PStr "bill.pdf" = PStr "bill.pdf"
  /\ [Some "folder-id"] = [DRIVE_FOLDER_ID env]
  /\ fs w !! Path.resolve ("invoices/" +:+ Py.str (PStr "bill.pdf"))
     = Some (media_content media)
  /\ (exists opened,
        (MediaFileUpload ("invoices/" +:+ Py.str (PStr "bill.pdf")) "application/pdf" true,
         inr opened) ∈ new_events w w')
  /\ fs w' = fs w.
Proof.
  apply (upload_sends_the_local_file (Sample.env Sample.no_failure) Sample.drive
           (PStr "bill.pdf") _ (PStr "bill.pdf") [Some "folder-id"] _ "id"
           (inr (PDict [("id", PStr "drive:bill.pdf")]))).
  vm_compute. apply list_elem_of_further, list_elem_of_here.
Defined.

(** A missing local file: one failed attempt to open it, one error logged,
    no request to the storage service. *)
Example upload_of_a_missing_file :
  let w' := exec (upload_to_drive (Sample.env Sample.no_failure) Sample.drive
                    (PStr "bill.pdf")) Sample.world0 in
  outcome (upload_to_drive (Sample.env Sample.no_failure) Sample.drive (PStr "bill.pdf"))
    Sample.world0 = inr tt
  /\ trace w' = [(MediaFileUpload "invoices/bill.pdf" "application/pdf" true,
                  inl (FileNotFoundError "invoices/bill.pdf"))]
  /\ log w' = [(ERROR, "Error uploading to Drive: [Errno 2] No such file or directory: 'invoices/bill.pdf'")].
Proof. repeat split. Qed.

(** [X8] Once the storage service has answered, [upload_to_drive] logs one
    entry: the success message with the [id] of the answer -- [None] when
    the answer has no [id] -- or, when the answer is not a dictionary, an
    error, although the file was created. *)
Theorem upload_logs_the_answer env ds filename w name parents media fields file :
  let w' := exec (upload_to_drive env ds filename) w in
  (FilesCreate name parents media fields, inr file) ∈ new_events w w' ->
  new_log w w' = [upload_entry filename file].
Proof.
  unfold exec, upload_to_drive, upload_entry. unfold_monad.
  repeat (case_match; simplify_eq/=); appended;
    rewrite ?elem_of_cons, ?elem_of_nil; intros Hin; destruct_or?; simplify_eq/=;
    congruence.
Qed.

Lemma upload_logs_the_answer_witness :
  let env := Sample.env Sample.no_failure in
  let w := {| fs := {[ ["invoices"; "bill.pdf"] := list_byte_of_string "%PDF" ]};
              log := []; trace := [] |} in
  new_log w (exec (upload_to_drive env Sample.drive (PStr "bill.pdf")) w)
  = [upload_entry (PStr "bill.pdf") (PDict [("id", PStr "drive:bill.pdf")])].
Proof.
  apply (upload_logs_the_answer (Sample.env Sample.no_failure) Sample.drive
           (PStr "bill.pdf") _ (PStr "bill.pdf") [Some "folder-id"]
           {| media_filename := "invoices/bill.pdf";
              media_mimetype := "application/pdf";
              media_resumable := true;
              media_content := list_byte_of_string "%PDF" |} "id").
  vm_compute. apply list_elem_of_further, list_elem_of_here.
Defined.

(** An answer without [id] is logged as a success with [ID: None]. *)
Example upload_entry_without_id :
  upload_entry (PStr "bill.pdf") (PDict [("name", PStr "bill.pdf")])
  = (INFO, "File bill.pdf uploaded successfully, ID: None").
Proof. reflexivity. Qed.

(** ** Processing one attachment *)

(** Splits a run of [process_attachment] into its cases, with what is
    known of the upload in the cases that reach it. *)
Ltac attachment_cases :=
  unfold exec, process_attachment, has_nested; unfold_monad;
  repeat (case_match; simplify_eq/=);
  try match goal with
      | H : upload_to_drive _ _ _ _ = _ |- _ =>
          let Hfs := fresh "Hfs" in
          let evs := fresh "evs" in
          let Htr := fresh "Htr" in
          let Hevs := fresh "Hevs" in
          apply upload_to_drive_run in H as (? & Hfs & evs & Htr & Hevs);
          simplify_eq; autorewrite with world in Hfs, Htr
      end;
  try match goal with
      | Hfs : fs ?w = _, H : fs ?w !! _ = None |- _ =>
          rewrite Hfs, lookup_insert_eq in H; discriminate
      end;
  unfold new_events, new_log; autorewrite with world;
  try match goal with
      | Htr : trace ?w = _ |- _ => rewrite Htr; autorewrite with world
      end;
  rewrite <- ?app_assoc, ?drop_app_length, ?drop_all; cbn [app].

(** [X9] Whatever [process_attachment] writes to a local file or sends to
    the storage service is the attachment it fetched for this message,
    decoded: no local file is touched and nothing is uploaded unless the
    fetch returned, its answer had a [data] field and that field decoded;
    the bytes written and the bytes uploaded are the decoded bytes. *)
Theorem written_and_uploaded_bytes_are_the_decoded_attachment
    env gs ds msg_id part w ev path :
  let w' := exec (process_attachment env gs ds msg_id part) w in
  ev ∈ new_events w w' ->
  touched_path ev = Some path ->
  exists attachment_id attachment raw decoded,
    (AttachmentsGet "me" msg_id attachment_id, inr attachment) ∈ new_events w w'
    /\ Py.getitem attachment "data" = inr raw
    /\ urlsafe_b64decode env raw = inr decoded
    /\ carries decoded ev.
Proof.
  attachment_cases.
  all: intros Hin Hpath.
  all: rewrite ?elem_of_cons, ?elem_of_app, ?elem_of_cons, ?elem_of_nil in Hin;
    destruct_or?; simplify_eq/=.
  all: do 4 eexists; (split; [apply list_elem_of_here|]);
    (split; [eassumption|]); (split; [eassumption|]).
  all: try done.
  all: rewrite Forall_forall in Hevs; destruct (Hevs _ Hin) as (Hcall & _ & Hfrom).
  all: destruct ev as [[] answer]; unfold uploads_from, carries, is_upload_call in *;
    simplify_eq/=; try done.
  all: destruct Hfrom as [_ Hcontent]; rewrite lookup_insert_eq in Hcontent.
  all: by simplify_eq.
Qed.

Lemma written_and_uploaded_bytes_are_the_decoded_attachment_witness :
  let env := Sample.env Sample.no_failure in
  let w' := exec (process_attachment env Sample.gmail Sample.drive (PStr "m1")
                    (Sample.pdf_part "january.pdf" "a1")) Sample.world0 in
  let ev : event :=
    (FilesCreate (PStr "january.pdf") [Some "folder-id"]
       {| media_filename := "invoices/january.pdf";
          media_mimetype := "application/pdf";
          media_resumable := true;
          media_content := list_byte_of_string "%PDF a1" |} "id",
     inr (PDict [("id", PStr "drive:january.pdf")])) in
  exists attachment_id attachment raw decoded,
    (AttachmentsGet "me" (PStr "m1") attachment_id, inr attachment)
      ∈ new_events Sample.world0 w'
    /\ Py.getitem attachment "data" = inr raw
    /\ urlsafe_b64decode env raw = inr decoded
    /\ carries decoded ev.
Proof.
  apply (written_and_uploaded_bytes_are_the_decoded_attachment
           (Sample.env Sample.no_failure) Sample.gmail Sample.drive (PStr "m1")
           (Sample.pdf_part "january.pdf" "a1") Sample.world0 _ "invoices/january.pdf").
  - vm_compute. do 4 apply list_elem_of_further. apply list_elem_of_here.
  - reflexivity.
Defined.

(** [X10] When the write of the local file raises, [process_attachment]
    stops there: the calls of the run are the fetch, the open and the
    failed write, the exception is its one log entry, nothing is uploaded
    and nothing is removed, so the file is left behind holding the bytes
    that had got through, a prefix of the attachment. *)
Theorem failed_write_leaves_a_partial_file env gs ds msg_id part w path data e :
  let w' := exec (process_attachment env gs ds msg_id part) w in
  (FileWrite path data, inl e) ∈ new_events w w' ->
  (exists attachment_id attachment opened,
      let before : list event :=
        [(AttachmentsGet "me" msg_id attachment_id, inr attachment);
         (OpenWb path, inr opened)] in
      new_events w w' = before ++ [(FileWrite path data, inl e)]
      /\ fs w'
         = <[Path.resolve path
             := take (partial_write env (trace w ++ before) path data) data]> (fs w))
  /\ new_log w w' = [(ERROR, "Error processing attachment: " +:+ Py.exn_str e)].
Proof.
  attachment_cases.
  all: intros Hin.
  all: rewrite ?elem_of_cons, ?elem_of_app, ?elem_of_cons, ?elem_of_nil in Hin;
    destruct_or?; simplify_eq/=.
  all: try (rewrite Forall_forall in Hevs; by destruct (Hevs _ Hin) as (Hcall & _)).
  split; [|done]. do 3 eexists. split; [reflexivity|].
  by rewrite insert_insert_eq.
Qed.

Lemma failed_write_leaves_a_partial_file_witness :
  let env := Sample.env Sample.write_fails in
  let data := list_byte_of_string "%PDF a1" in
  let w' := exec (process_attachment env Sample.gmail Sample.drive (PStr "m1")
                    (Sample.pdf_part "january.pdf" "a1")) Sample.world0 in
  (exists attachment_id attachment opened,
      let before : list event :=
        [(AttachmentsGet "me" (PStr "m1") attachment_id, inr attachment);
         (OpenWb "invoices/january.pdf", inr opened)] in
      new_events Sample.world0 w'
      = before ++ [(FileWrite "invoices/january.pdf" data,
                    inl (OSError "[Errno 28] No space left on device"))]
      /\ fs w'
         = <[Path.resolve "invoices/january.pdf"
             := take (partial_write env (trace Sample.world0 ++ before)
                        "invoices/january.pdf" data) data]> (fs Sample.world0))
  /\ new_log Sample.world0 w'
     = [(ERROR, "Error processing attachment: "
                +:+ Py.exn_str (OSError "[Errno 28] No space left on device"))].
Proof.
  apply (failed_write_leaves_a_partial_file (Sample.env Sample.write_fails)
           Sample.gmail Sample.drive (PStr "m1") (Sample.pdf_part "january.pdf" "a1")
           Sample.world0).
  vm_compute. do 2 apply list_elem_of_further. apply list_elem_of_here.
Defined.

(** In that run the four bytes that got through are what the file holds. *)
Example partial_file_after_failed_write :
  let w' := exec (process_attachment (Sample.env Sample.write_fails) Sample.gmail
                    Sample.drive (PStr "m1") (Sample.pdf_part "january.pdf" "a1"))
              Sample.world0 in
  map_to_list (fs w') = [(["invoices"; "january.pdf"], list_byte_of_string "%PDF")].
Proof. vm_compute. reflexivity. Qed.

(** [X11] When the local file cannot be opened, [process_attachment] stops
    there: the calls of the run are the fetch and the failed open, the
    exception is its one log entry, and no local file has changed. *)
Theorem failed_open_changes_nothing env gs ds msg_id part w path e :
  let w' := exec (process_attachment env gs ds msg_id part) w in
  (OpenWb path, inl e) ∈ new_events w w' ->
  (exists attachment_id attachment,
      new_events w w'
      = [(AttachmentsGet "me" msg_id attachment_id, inr attachment);
         (OpenWb path, inl e)])
  /\ new_log w w' = [(ERROR, "Error processing attachment: " +:+ Py.exn_str e)]
  /\ fs w' = fs w.
Proof.
  attachment_cases.
  all: intros Hin.
  all: rewrite ?elem_of_cons, ?elem_of_app, ?elem_of_cons, ?elem_of_nil in Hin;
    destruct_or?; simplify_eq/=.
  all: try (rewrite Forall_forall in Hevs; by destruct (Hevs _ Hin) as (Hcall & _)).
  by repeat split; eauto.
Qed.

Lemma failed_open_changes_nothing_witness :
  let env := Sample.env Sample.open_fails in
  let e := OSError "[Errno 13] Permission denied: 'invoices/january.pdf'" in
  let w' := exec (process_attachment env Sample.gmail Sample.drive (PStr "m1")
                    (Sample.pdf_part "january.pdf" "a1")) Sample.world0 in
  (exists attachment_id attachment,
      new_events Sample.world0 w'
      = [(AttachmentsGet "me" (PStr "m1") attachment_id, inr attachment);
         (OpenWb "invoices/january.pdf", inl e)])
  /\ new_log Sample.world0 w'
     = [(ERROR, "Error processing attachment: " +:+ Py.exn_str e)]
  /\ fs w' = fs Sample.world0.
Proof.
  apply (failed_open_changes_nothing (Sample.env Sample.open_fails)
           Sample.gmail Sample.drive (PStr "m1") (Sample.pdf_part "january.pdf" "a1")
           Sample.world0).
  vm_compute. apply list_elem_of_further, list_elem_of_here.
Defined.

(** ** Calls made for one message *)

Lemma parts_loop_emits env gs ds msg_id items w :
  emits (attachment_call env) w (exec (for_each items (each_part env gs ds msg_id)) w).
Proof.
  apply lift_for_each; [apply emits_refl | apply emits_trans |].
  intros part w0. apply lift_each_part; [apply emits_refl|].
  apply process_attachment_emits.
Qed.

(** The calls of [process_single_email]: the fetch, then attachment calls. *)
Lemma message_calls env gs ds msg_id w :
  exists rest,
    trace (exec (process_single_email env gs ds msg_id) w)
    = trace w
      ++ (MessagesGet "me" msg_id, respond env (trace w) (MessagesGet "me" msg_id))
         :: rest
    /\ Forall (attachment_call env) rest.
Proof.
  unfold exec, process_single_email, has_nested. unfold_monad.
  repeat (case_match; simplify_eq/=).
  all: try (exists []; split; [by autorewrite with world | constructor]).
  all: match goal with
       | H : for_each ?items (each_part ?en ?g ?d ?m) ?wx = (_, ?wy) |- _ =>
           destruct (parts_loop_emits en g d m items wx) as (evs & Htr & Hevs);
           unfold exec in Htr; rewrite H in Htr; cbn [snd] in Htr
       end.
  all: exists evs; split; [|done]; autorewrite with world; rewrite Htr;
    autorewrite with world; by rewrite <- app_assoc.
Qed.

Lemma process_single_email_fetch_fails env gs ds msg_id e w :
  respond env (trace w) (MessagesGet "me" msg_id) = inl e ->
  process_single_email env gs ds msg_id w
  = (inr tt,
     add_log (ERROR, "Error processing message " +:+ Py.str msg_id +:+ ": "
                     +:+ Py.exn_str e)
       (add_event (MessagesGet "me" msg_id, inl e) w)).
Proof.
  intros He. unfold process_single_email, try_except, bind at 1, call at 1.
  by rewrite He.
Qed.

(** [X12] [process_single_email] fetches its message once, as its first
    call, for user [me]; every later call is a call of
    [process_attachment].  When the fetch raises there is no later call:
    the exception is logged with the identifier of the message and no
    local file changes. *)
Theorem message_is_fetched_once env gs ds msg_id w :
  let w' := exec (process_single_email env gs ds msg_id) w in
  let answer := respond env (trace w) (MessagesGet "me" msg_id) in
  exists rest,
    new_events w w' = (MessagesGet "me" msg_id, answer) :: rest
    /\ Forall (attachment_call env) rest
    /\ forall e,
         answer = inl e ->
         rest = []
         /\ new_log w w'
            = [(ERROR, "Error processing message " +:+ Py.str msg_id +:+ ": "
                       +:+ Py.exn_str e)]
         /\ fs w' = fs w.
Proof.
  intros w' answer.
  destruct (message_calls env gs ds msg_id w) as (rest & Htr & Hrest).
  exists rest. fold w' in Htr. rewrite (new_events_app _ _ _ Htr).
  split; [done|]. split; [done|]. intros e He.
  subst w' answer. revert Htr. unfold exec.
  rewrite (process_single_email_fetch_fails _ _ _ _ _ _ He). cbn [snd].
  autorewrite with world. rewrite He.
  intros Htr%app_inv_head. split; [by injection Htr|].
  split; [by appended|done].
Qed.

(** The filter on parts neither reads nor changes the world. *)
Lemma is_pdf_part_run part w w0 :
  is_pdf_part part w = (outcome (is_pdf_part part) w0, w).
Proof.
  unfold outcome, is_pdf_part. unfold_monad. by repeat case_match.
Qed.

Lemma is_pdf_part_outcome part w1 w2 :
  outcome (is_pdf_part part) w1 = outcome (is_pdf_part part) w2.
Proof. unfold outcome. by rewrite (is_pdf_part_run part w1 w2). Qed.

Lemma for_each_cons x items (body : pyval -> M unit) w :
  for_each (x :: items) body w
  = match body x w with
    | (inr _, w1) => for_each items body w1
    | (inl e, w1) => (inl e, w1)
    end.
Proof. reflexivity. Qed.

(** One turn of the loop over the parts. *)
Lemma each_part_step env gs ds msg_id part w :
  each_part env gs ds msg_id part w
  = match outcome (is_pdf_part part) w with
    | inl e => (inl e, w)
    | inr true => (inr tt, exec (process_attachment env gs ds msg_id part) w)
    | inr false => (inr tt, w)
    end.
Proof.
  unfold each_part, bind. rewrite (is_pdf_part_run part w w).
  destruct (outcome (is_pdf_part part) w) as [e|[]]; [done| |done].
  by rewrite (run_split (process_attachment env gs ds msg_id part)),
    process_attachment_returns.
Qed.

(** The loop over the parts stops at the first part on which the filter
    raises. *)
Lemma parts_loop_stops env gs ds msg_id before part after e w :
  Forall (fun p => returns (outcome (is_pdf_part p) w)) before ->
  outcome (is_pdf_part part) w = inl e ->
  for_each (before ++ part :: after) (each_part env gs ds msg_id) w
  = (inl e, exec (for_each before (each_part env gs ds msg_id)) w).
Proof.
  intros Hbefore Hpart. revert w Hbefore Hpart.
  induction before as [|p before IH]; intros w Hbefore Hpart.
  - cbn [app]. by rewrite for_each_cons, each_part_step, Hpart.
  - apply Forall_cons in Hbefore as [[selected Hp] Hbefore].
    unfold exec. cbn [app]. rewrite !for_each_cons, each_part_step, Hp.
    assert (forall w1,
              for_each (before ++ part :: after) (each_part env gs ds msg_id) w1
              = (inl e, exec (for_each before (each_part env gs ds msg_id)) w1)) as Hrest.
    { intros w1. apply IH.
      - eapply Forall_impl; [exact Hbefore|]. intros q Hq.
        by rewrite (is_pdf_part_outcome q w1 w).
      - by rewrite (is_pdf_part_outcome part w1 w). }
    destruct selected; by rewrite Hrest.
Qed.

(** What [process_single_email] does once the parts of the message are
    known. *)
Lemma process_single_email_parts env gs ds msg_id w message payload parts items :
  respond env (trace w) (MessagesGet "me" msg_id) = inr message ->
  Py.getitem message "payload" = inr payload ->
  Py.getitem payload "parts" = inr parts ->
  Py.iter parts = inr items ->
  process_single_email env gs ds msg_id w
  = match outcome (for_each items (each_part env gs ds msg_id))
            (add_event (MessagesGet "me" msg_id, inr message) w) with
    | inr _ =>
        (inr tt,
         exec (for_each items (each_part env gs ds msg_id))
           (add_event (MessagesGet "me" msg_id, inr message) w))
    | inl e =>
        (inr tt,
         add_log (ERROR, "Error processing message " +:+ Py.str msg_id +:+ ": "
                         +:+ Py.exn_str e)
           (exec (for_each items (each_part env gs ds msg_id))
              (add_event (MessagesGet "me" msg_id, inr message) w)))
    end.
Proof.
  intros Hfetch Hpayload Hparts Hiter.
  unfold process_single_email, has_nested.
  unfold try_except, bind at 1, call at 1. rewrite Hfetch.
  unfold_monad.
  rewrite (getitem_contains _ _ _ Hpayload), Hpayload.
  rewrite (getitem_contains _ _ _ Hparts), Hparts, Hiter.
  rewrite (run_split (for_each items (each_part env gs ds msg_id))).
  by destruct (outcome _ _) as [e|[]].
Qed.

(** [X13] A part on which the filter itself raises -- a part that is not a
    dictionary, or whose filename is neither empty nor a string -- ends the
    processing of its message: the parts before it are processed, the
    parts after it are not looked at, and the exception is logged with the
    identifier of the message. *)
Theorem malformed_part_ends_the_message
    env gs ds msg_id w message payload parts before part after e :
  respond env (trace w) (MessagesGet "me" msg_id) = inr message ->
  Py.getitem message "payload" = inr payload ->
  Py.getitem payload "parts" = inr parts ->
  Py.iter parts = inr (before ++ part :: after) ->
  Forall (fun p => returns (outcome (is_pdf_part p) w)) before ->
  outcome (is_pdf_part part) w = inl e ->
  process_single_email env gs ds msg_id w
  = (inr tt,
     add_log (ERROR, "Error processing message " +:+ Py.str msg_id +:+ ": "
                     +:+ Py.exn_str e)
       (exec (for_each before (each_part env gs ds msg_id))
          (add_event (MessagesGet "me" msg_id, inr message) w))).
Proof.
  intros Hfetch Hpayload Hparts Hiter Hbefore Hpart.
  rewrite (process_single_email_parts _ _ _ _ _ _ _ _ _ Hfetch Hpayload Hparts Hiter).
  unfold outcome at 1, exec at 1 2.
  rewrite (parts_loop_stops _ _ _ _ _ _ _ e).
  - done.
  - eapply Forall_impl; [exact Hbefore|]. intros q Hq.
    by rewrite (is_pdf_part_outcome q _ w).
  - by rewrite (is_pdf_part_outcome part _ w).
Qed.

Lemma malformed_part_ends_the_message_witness :
  let env := mailbox_env (fun _ => inr message_with_numeric_filename) in
  let e := AttributeError "'int' object has no attribute 'lower'" in
  process_single_email env Sample.gmail Sample.drive (PStr "m") Sample.world0
  = (inr tt,
     add_log (ERROR, "Error processing message " +:+ Py.str (PStr "m") +:+ ": "
                     +:+ Py.exn_str e)
       (exec (for_each [part_of "first.pdf" (PStr "a1")]
                (each_part env Sample.gmail Sample.drive (PStr "m")))
          (add_event (MessagesGet "me" (PStr "m"), inr message_with_numeric_filename)
             Sample.world0))).
Proof.
  apply (malformed_part_ends_the_message
           (mailbox_env (fun _ => inr message_with_numeric_filename))
           Sample.gmail Sample.drive (PStr "m") Sample.world0
           message_with_numeric_filename
           (PDict [("parts", PList [part_of "first.pdf" (PStr "a1");
                                    PDict [("filename", PInt 7)];
                                    part_of "third.pdf" (PStr "a3")])])
           (PList [part_of "first.pdf" (PStr "a1");
                   PDict [("filename", PInt 7)];
                   part_of "third.pdf" (PStr "a3")])
           [part_of "first.pdf" (PStr "a1")]
           (PDict [("filename", PInt 7)])
           [part_of "third.pdf" (PStr "a3")]);
    try reflexivity.
  repeat constructor. by exists true.
Defined.

(** In that run [first.pdf] is uploaded and [third.pdf] is never fetched. *)
Example numeric_filename_hides_later_parts :
  let env := mailbox_env (fun _ => inr message_with_numeric_filename) in
  let w' := exec (process_single_email env Sample.gmail Sample.drive (PStr "m"))
              Sample.world0 in
  download_requests (trace w') = [AttachmentsGet "me" (PStr "m") (PStr "a1")]
  /\ log w'
     = [(INFO, "File first.pdf uploaded successfully, ID: drive:first.pdf");
        (ERROR, "Error processing message m: 'int' object has no attribute 'lower'")].
Proof. split; vm_compute; reflexivity. Qed.

(** ** Every selected part is downloaded *)

Lemma is_pdf_part_value part w : is_pdf_part part w = (selects part, w).
Proof.
  unfold is_pdf_part, selects. unfold_monad. by repeat case_match.
Qed.

Lemma download_requests_app evs1 evs2 :
  download_requests (evs1 ++ evs2) = download_requests evs1 ++ download_requests evs2.
Proof. unfold download_requests. by rewrite List.filter_app, map_app. Qed.

Lemma download_requests_uploads evs :
  Forall (fun ev => is_upload_call ev = true) evs -> download_requests evs = [].
Proof.
  induction 1 as [|[r answer] evs Hev _ IH]; [done|].
  unfold download_requests in *. cbn [List.filter].
  by destruct r.
Qed.

Lemma new_events_trans w w1 w2 evs1 evs2 :
  trace w1 = trace w ++ evs1 ->
  trace w2 = trace w1 ++ evs2 ->
  new_events w w2 = new_events w w1 ++ new_events w1 w2.
Proof.
  intros H1 H2. rewrite (new_events_app _ _ _ H1), (new_events_app _ _ _ H2).
  apply new_events_app. by rewrite H2, H1, app_assoc.
Qed.

(** The downloads of [process_attachment]: the one its part calls for. *)
Lemma process_attachment_downloads env gs ds msg_id part w :
  download_requests (new_events w (exec (process_attachment env gs ds msg_id part) w))
  = match attachment_id_of part with
    | Some id => [AttachmentsGet "me" msg_id id]
    | None => []
    end.
Proof.
  attachment_cases.
  all: try match goal with
       | Hid : attachment_id_of _ = _ |- _ =>
           unfold attachment_id_of in Hid; repeat (case_match; simplify_eq/=)
       end.
  all: try match goal with
       | |- download_requests (?a :: ?b :: ?c :: ?evs ++ ?l) = _ =>
           change (a :: b :: c :: evs ++ l) with ([a; b; c] ++ evs ++ l);
           rewrite !download_requests_app, (download_requests_uploads evs);
           [|eapply Forall_impl; [exact Hevs|]; by intros ev (? & _)]
       end.
  all: by unfold download_requests; cbn [List.filter is_download fst map app].
Qed.

Lemma parts_loop_downloads env gs ds msg_id items w :
  Forall (fun part => returns (selects part)) items ->
  download_requests
    (new_events w (exec (for_each items (each_part env gs ds msg_id)) w))
  = flat_map (expected_download msg_id) items.
Proof.
  intros Hitems. revert w.
  induction Hitems as [|part items [selected Hpart] _ IH]; intros w.
  - unfold exec. cbn [for_each]. unfold ret. cbn [snd].
    by rewrite (new_events_app w w []) by (by rewrite app_nil_r).
  - unfold exec. rewrite for_each_cons, each_part_step.
    unfold outcome at 1. rewrite is_pdf_part_value. cbn [fst].
    cbn [flat_map]. unfold expected_download at 1. rewrite Hpart.
    destruct selected.
    + destruct (process_attachment_emits env gs ds msg_id part w) as (evs1 & Htr1 & _).
      destruct (parts_loop_emits env gs ds msg_id items
                  (exec (process_attachment env gs ds msg_id part) w))
        as (evs2 & Htr2 & _).
      fold (exec (for_each items (each_part env gs ds msg_id))
              (exec (process_attachment env gs ds msg_id part) w)).
      rewrite (new_events_trans _ _ _ _ _ Htr1 Htr2), download_requests_app.
      rewrite process_attachment_downloads, IH. by destruct (attachment_id_of part).
    + fold (exec (for_each items (each_part env gs ds msg_id)) w).
      rewrite IH. by destruct (attachment_id_of part).
Qed.

(** [X14] When the filter raises on none of the parts of a message, the
    attachments [process_single_email] downloads are, in the order of the
    parts and once each, those of the parts that have a PDF name and an
    attachment identifier -- whatever happened to the parts before them. *)
Theorem every_selected_part_is_downloaded
    env gs ds msg_id w message payload parts items :
  respond env (trace w) (MessagesGet "me" msg_id) = inr message ->
  Py.getitem message "payload" = inr payload ->
  Py.getitem payload "parts" = inr parts ->
  Py.iter parts = inr items ->
  Forall (fun part => returns (selects part)) items ->
  download_requests (new_events w (exec (process_single_email env gs ds msg_id) w))
  = flat_map (expected_download msg_id) items.
Proof.
  intros Hfetch Hpayload Hparts Hiter Hitems.
  unfold exec at 1.
  rewrite (process_single_email_parts _ _ _ _ _ _ _ _ _ Hfetch Hpayload Hparts Hiter).
  set (w1 := add_event (MessagesGet "me" msg_id, inr message) w).
  destruct (parts_loop_emits env gs ds msg_id items w1) as (evs & Htr & _).
  assert (forall w2, trace w2 = trace (exec (for_each items (each_part env gs ds msg_id)) w1) ->
            download_requests (new_events w w2)
            = flat_map (expected_download msg_id) items) as Hgen.
  { intros w2 Hw2.
    rewrite (new_events_trans w w1 w2 [(MessagesGet "me" msg_id, inr message)] evs);
      [|done|by rewrite Hw2].
    rewrite download_requests_app, (new_events_app w w1 [_]) by done.
    unfold new_events at 1. rewrite Hw2.
    fold (new_events w1 (exec (for_each items (each_part env gs ds msg_id)) w1)).
    by rewrite parts_loop_downloads. }
  destruct (outcome _ _); cbn [snd]; by apply Hgen.
Qed.

Lemma every_selected_part_is_downloaded_witness :
  download_requests
    (new_events Sample.world0
       (exec (process_single_email (Sample.env Sample.upload_fails) Sample.gmail
                Sample.drive (PStr "m5")) Sample.world0))
  = flat_map (expected_download (PStr "m5"))
      [Sample.pdf_part "notes.txt" "a0"; Sample.pdf_part "summary.pdf" "a5"].
Proof.
  apply (every_selected_part_is_downloaded (Sample.env Sample.upload_fails)
           Sample.gmail Sample.drive (PStr "m5") Sample.world0
           (Sample.message_with
              [Sample.pdf_part "notes.txt" "a0"; Sample.pdf_part "summary.pdf" "a5"])
           (PDict [("parts", PList [Sample.pdf_part "notes.txt" "a0";
                                    Sample.pdf_part "summary.pdf" "a5"])])
           (PList [Sample.pdf_part "notes.txt" "a0"; Sample.pdf_part "summary.pdf" "a5"]));
    try reflexivity.
  repeat constructor; by eexists.
Defined.

(** ** The search and the loop over its results *)

(** What [process_emails] does once both services are obtained and the
    search has returned the messages [items]. *)
Lemma process_emails_loop env w gs w1 ds w2 results messages items :
  get_google_service env "gmail" "v1" None w = (inr gs, w1) ->
  get_google_service env "drive" "v3" None w1 = (inr ds, w2) ->
  respond env (trace w2) (MessagesList "me" query) = inr results ->
  Py.get results "messages" (PList []) = inr messages ->
  Py.iter messages = inr items ->
  process_emails env w
  = match outcome (for_each items (each_message env gs ds))
            (add_event (MessagesList "me" query, inr results) w2) with
    | inr _ =>
        (inr tt,
         exec (for_each items (each_message env gs ds))
           (add_event (MessagesList "me" query, inr results) w2))
    | inl e =>
        (inr tt,
         add_log (ERROR, "Error processing emails: " +:+ Py.exn_str e)
           (exec (for_each items (each_message env gs ds))
              (add_event (MessagesList "me" query, inr results) w2)))
    end.
Proof.
  intros Hgmail Hdrive Hlist Hget Hiter.
  unfold process_emails, try_except.
  unfold bind at 1. rewrite Hgmail. unfold bind at 1. rewrite Hdrive.
  unfold bind at 1, call at 1. rewrite Hlist.
  unfold bind at 1, lift at 1. rewrite Hget.
  unfold bind at 1, lift at 1. rewrite Hiter.
  rewrite (run_split (for_each items (each_message env gs ds))).
  by destruct (outcome _ _) as [e|[]].
Qed.

(** [X15] When the search answers without a [messages] entry, or with an
    empty one, [process_emails] is done after the search: it returns
    normally, fetches no message and logs nothing. *)
Theorem empty_search_result_ends_the_run env w gs w1 ds w2 results :
  get_google_service env "gmail" "v1" None w = (inr gs, w1) ->
  get_google_service env "drive" "v3" None w1 = (inr ds, w2) ->
  respond env (trace w2) (MessagesList "me" query) = inr results ->
  Py.get results "messages" (PList []) = inr (PList []) ->
  process_emails env w
  = (inr tt, add_event (MessagesList "me" query, inr results) w2)
  /\ log w2 = log w /\ fs w2 = fs w.
Proof.
  intros Hgmail Hdrive Hlist Hget.
  rewrite (process_emails_loop _ _ _ _ _ _ _ _ [] Hgmail Hdrive Hlist Hget eq_refl).
  split; [done|].
  pose proof (get_google_service_frame env "gmail" "v1" None w) as H1.
  pose proof (get_google_service_frame env "drive" "v3" None w1) as H2.
  unfold exec in H1, H2. rewrite Hgmail in H1. rewrite Hdrive in H2. cbn [snd] in *.
  destruct H1 as (Hfs1 & Hlog1 & _). destruct H2 as (Hfs2 & Hlog2 & _).
  split; congruence.
Qed.

Lemma empty_search_result_ends_the_run_witness :
  let env :=
    {| respond := fun h r =>
         match r with
         | MessagesList _ _ => inr (PDict [("resultSizeEstimate", PInt 0)])
         | _ => Sample.answer Sample.no_failure h r
         end;
       partial_write := fun _ _ _ => 0%nat;
       urlsafe_b64decode := Sample.decode;
       DRIVE_FOLDER_ID := Some "folder-id" |} in
  let w1 := exec (get_google_service env "gmail" "v1" None) Sample.world0 in
  let w2 := exec (get_google_service env "drive" "v3" None) w1 in
  process_emails env Sample.world0
  = (inr tt,
     add_event (MessagesList "me" query, inr (PDict [("resultSizeEstimate", PInt 0)])) w2)
  /\ log w2 = log Sample.world0 /\ fs w2 = fs Sample.world0.
Proof.
  eapply (empty_search_result_ends_the_run _ Sample.world0 Sample.gmail _ Sample.drive);
    reflexivity.
Defined.

(** The loop over the messages stops at the first message without an
    identifier. *)
Lemma messages_loop_stops env gs ds before ids message after e w :
  Forall2 (fun m id => Py.getitem m "id" = inr id) before ids ->
  Py.getitem message "id" = inl e ->
  for_each (before ++ message :: after) (each_message env gs ds) w
  = (inl e, fold_left (fun w id => exec (process_single_email env gs ds id) w) ids w).
Proof.
  intros Hids Hmessage. revert w.
  induction Hids as [|m id before ids Hid _ IH]; intros w.
  - cbn [app fold_left]. rewrite for_each_cons.
    unfold each_message, bind, lift. by rewrite Hmessage.
  - cbn [app fold_left]. rewrite for_each_cons.
    unfold each_message, bind, lift. rewrite Hid.
    rewrite (run_split (process_single_email env gs ds id)).
    rewrite process_single_email_returns. apply IH.
Qed.

(** [X16] A message of the search result that has no [id] ends the run:
    the messages before it are processed, the messages after it are not
    fetched, and the exception is logged by [process_emails], which returns
    normally. *)
Theorem message_without_id_ends_the_run
    env w gs w1 ds w2 results messages before ids message after e :
  get_google_service env "gmail" "v1" None w = (inr gs, w1) ->
  get_google_service env "drive" "v3" None w1 = (inr ds, w2) ->
  respond env (trace w2) (MessagesList "me" query) = inr results ->
  Py.get results "messages" (PList []) = inr messages ->
  Py.iter messages = inr (before ++ message :: after) ->
  Forall2 (fun m id => Py.getitem m "id" = inr id) before ids ->
  Py.getitem message "id" = inl e ->
  process_emails env w
  = (inr tt,
     add_log (ERROR, "Error processing emails: " +:+ Py.exn_str e)
       (fold_left (fun w id => exec (process_single_email env gs ds id) w) ids
          (add_event (MessagesList "me" query, inr results) w2))).
Proof.
  intros Hgmail Hdrive Hlist Hget Hiter Hids Hmessage.
  rewrite (process_emails_loop _ _ _ _ _ _ _ _ _ Hgmail Hdrive Hlist Hget Hiter).
  unfold outcome, exec.
  by rewrite (messages_loop_stops _ _ _ _ _ _ _ _ _ Hids Hmessage).
Qed.

Lemma message_without_id_ends_the_run_witness :
  let results :=
    PDict [("messages",
            PList [PDict [("id", PStr "m1")]; PDict [("threadId", PStr "t2")];
                   PDict [("id", PStr "m3")]])] in
  let env :=
    {| respond := fun h r =>
         match r with
         | MessagesList _ _ => inr results
         | _ => Sample.answer Sample.no_failure h r
         end;
       partial_write := fun _ _ _ => 0%nat;
       urlsafe_b64decode := Sample.decode;
       DRIVE_FOLDER_ID := Some "folder-id" |} in
  let w1 := exec (get_google_service env "gmail" "v1" None) Sample.world0 in
  let w2 := exec (get_google_service env "drive" "v3" None) w1 in
  process_emails env Sample.world0
  = (inr tt,
     add_log (ERROR, "Error processing emails: " +:+ Py.exn_str (KeyError "id"))
       (fold_left
          (fun w id => exec (process_single_email env Sample.gmail Sample.drive id) w)
          [PStr "m1"]
          (add_event (MessagesList "me" query, inr results) w2))).
Proof.
  eapply (message_without_id_ends_the_run _ Sample.world0 Sample.gmail _ Sample.drive _ _ _
            [PDict [("id", PStr "m1")]] [PStr "m1"]
            (PDict [("threadId", PStr "t2")]) [PDict [("id", PStr "m3")]]);
    try reflexivity.
  by repeat constructor.
Defined.

Lemma fetch_requests_app evs1 evs2 :
  fetch_requests (evs1 ++ evs2) = fetch_requests evs1 ++ fetch_requests evs2.
Proof. unfold fetch_requests. by rewrite List.filter_app, map_app. Qed.

Lemma fetch_requests_none (P : event -> Prop) evs :
  (forall ev, P ev -> is_message_fetch ev = false) ->
  Forall P evs -> fetch_requests evs = [].
Proof.
  intros HP. induction 1 as [|ev evs Hev _ IH]; [done|].
  unfold fetch_requests in *. cbn [List.filter]. by rewrite (HP _ Hev).
Qed.

Lemma attachment_call_not_fetch env ev :
  attachment_call env ev -> is_message_fetch ev = false.
Proof. by destruct ev as [[] answer]. Qed.

(** The fetches made for a list of messages: one for each, in order. *)
Lemma messages_fold_fetches env gs ds ids w :
  exists evs,
    trace (fold_left (fun w id => exec (process_single_email env gs ds id) w) ids w)
    = trace w ++ evs
    /\ fetch_requests evs = map (MessagesGet "me") ids.
Proof.
  revert w. induction ids as [|id ids IH]; intros w.
  - exists []. by rewrite app_nil_r.
  - cbn [fold_left map].
    destruct (message_calls env gs ds id w) as (rest & Htr & Hrest).
    destruct (IH (exec (process_single_email env gs ds id) w)) as (evs & Htr' & Hevs).
    exists (((MessagesGet "me" id, respond env (trace w) (MessagesGet "me" id)) :: rest)
            ++ evs).
    split; [by rewrite Htr', Htr, app_assoc|].
    rewrite fetch_requests_app, Hevs.
    change (fetch_requests ((MessagesGet "me" id, _) :: rest))
      with (MessagesGet "me" id :: fetch_requests rest).
    by rewrite (fetch_requests_none _ _ (attachment_call_not_fetch env) Hrest).
Qed.

(** [X17] When every message of the search result has an [id], a run of
    [process_emails] fetches each of them exactly once, in the order of the
    result, whatever happens while they are processed. *)
Theorem messages_are_fetched_once_in_order
    env w gs w1 ds w2 results messages items ids :
  get_google_service env "gmail" "v1" None w = (inr gs, w1) ->
  get_google_service env "drive" "v3" None w1 = (inr ds, w2) ->
  respond env (trace w2) (MessagesList "me" query) = inr results ->
  Py.get results "messages" (PList []) = inr messages ->
  Py.iter messages = inr items ->
  Forall2 (fun m id => Py.getitem m "id" = inr id) items ids ->
  fetch_requests (new_events w (exec (process_emails env) w))
  = map (MessagesGet "me") ids.
Proof.
  intros Hgmail Hdrive Hlist Hget Hiter Hids.
  unfold exec at 1.
  rewrite (process_emails_loop _ _ _ _ _ _ _ _ _ Hgmail Hdrive Hlist Hget Hiter).
  unfold outcome, exec. rewrite (messages_loop_fold _ _ _ _ _ _ Hids). cbn [fst snd].
  pose proof (get_google_service_frame env "gmail" "v1" None w) as H1.
  pose proof (get_google_service_frame env "drive" "v3" None w1) as H2.
  unfold exec in H1, H2. rewrite Hgmail in H1. rewrite Hdrive in H2. cbn [snd] in *.
  destruct H1 as (_ & _ & evs1 & Htr1 & Hevs1).
  destruct H2 as (_ & _ & evs2 & Htr2 & Hevs2).
  destruct (messages_fold_fetches env gs ds ids
              (add_event (MessagesList "me" query, inr results) w2))
    as (evs & Htr & Hevs).
  rewrite (new_events_app w _ (evs1 ++ evs2 ++ [(MessagesList "me" query, inr results)]
                              ++ evs)).
  - rewrite !fetch_requests_app, Hevs.
    rewrite (fetch_requests_none (fun ev => is_startup_call ev = true) evs1),
      (fetch_requests_none (fun ev => is_startup_call ev = true) evs2); try done.
    all: by intros [[] answer].
  - rewrite Htr. autorewrite with world. rewrite Htr2, Htr1.
    by rewrite <- !app_assoc.
Qed.

Lemma messages_are_fetched_once_in_order_witness :
  fetch_requests
    (new_events Sample.world0
       (exec (process_emails (Sample.env Sample.second_download_fails)) Sample.world0))
  = map (MessagesGet "me") [PStr "m1"; PStr "m2"; PStr "m3"].
Proof.
  eapply (messages_are_fetched_once_in_order (Sample.env Sample.second_download_fails)
            Sample.world0 Sample.gmail _ Sample.drive);
    try reflexivity.
  by repeat constructor.
Defined.

(** ** The start of a run *)

Lemma attachment_call_not_startup env ev :
  attachment_call env ev -> is_startup_call ev = false.
Proof. by destruct ev as [[] answer]. Qed.

Lemma messages_loop_no_startup env gs ds items w :
  emits (fun ev => is_startup_call ev = false) w
    (exec (for_each items (each_message env gs ds)) w).
Proof.
  apply lift_for_each; [apply emits_refl | apply emits_trans |].
  intros message w0.
  apply (lift_each_message env); [apply emits_refl | apply emits_trans | apply emits_log | |].
  - intros w1 id answer. by apply emits_event.
  - intros g d msg_id part w1.
    eapply emits_impl; [apply (attachment_call_not_startup env)|].
    apply process_attachment_emits.
Qed.

Lemma startup_shape w w' start rest (P : list event -> list event -> Prop) :
  trace w' = trace w ++ start ++ rest ->
  P start rest ->
  exists start0 rest0, new_events w w' = start0 ++ rest0 /\ P start0 rest0.
Proof. intros Htr HP. exists start, rest. by rewrite (new_events_app _ _ _ Htr). Qed.

Lemma startup_shape_all w w' start (P : list event -> list event -> Prop) :
  trace w' = trace w ++ start ->
  P start [] ->
  exists start0 rest0, new_events w w' = start0 ++ rest0 /\ P start0 rest0.
Proof.
  intros Htr HP. apply (startup_shape _ _ start []); [by rewrite app_nil_r | done].
Qed.

(** [X18] The calls of a run of [process_emails] begin with calls that
    follow the plan -- authorization and handle for the mail service,
    authorization and handle for the storage service, search -- as far as
    they return; whatever call comes after them is made only once the whole
    plan has gone through.  In particular the interactive authorization is
    run anew for each service, and nothing is fetched before the search
    returned. *)
Theorem run_starts_by_the_plan env w :
  exists start rest,
    new_events w (exec (process_emails env) w) = start ++ rest
    /\ (map fst start `prefix_of` startup_plan
        /\ Forall (fun ev => is_startup_call ev = false) rest
        /\ (rest <> [] -> map fst start = startup_plan /\ Forall succeeded start)).
Proof.
  unfold exec, process_emails, get_google_service. unfold_monad.
  repeat (case_match; simplify_eq/=).
  all: try match goal with
       | H : for_each ?items (each_message ?en ?g ?d) ?wx = (_, ?wy) |- _ =>
           destruct (messages_loop_no_startup en g d items wx) as (evs & Htr & Hevs);
           unfold exec in Htr; rewrite H in Htr; cbn [snd] in Htr;
           autorewrite with world in Htr
       end.
  all: try match type of Htr with
       | trace _ = (((((((trace _ ++ [?a1]) ++ [?a2]) ++ [?a3]) ++ [?a4]) ++ [?a5])
                      ++ [?a6]) ++ [?a7]) ++ _ =>
           apply (startup_shape _ _ [a1; a2; a3; a4; a5; a6; a7] evs);
           [ autorewrite with world; rewrite Htr, <- !app_assoc; reflexivity
           | split; [by exists []|]; split; [done|]; intros _;
             split; [done | by repeat constructor] ]
       end.
  all: eapply startup_shape_all; [read_appended|].
  all: split; [|split; [constructor | done]].
  all: unfold startup_plan; cbn [map fst]; by eexists.
Qed.

(** ** The filter on file names *)

Lemma length_append (a b : string) :
  String.length (a +:+ b) = (String.length a + String.length b)%nat.
Proof. induction a as [|c a IH]; [done|]. simpl. by rewrite IH. Qed.

Lemma substring_all (s : string) : substring 0 (String.length s) s = s.
Proof. induction s as [|c s IH]; [done|]. simpl. by rewrite IH. Qed.

Lemma substring_skip (a s : string) (m : nat) :
  substring (String.length a) m (a +:+ s) = substring 0 m s.
Proof. induction a as [|c a IH]; [done|]. apply IH. Qed.

Lemma substring_split (s : string) (k : nat) :
  (k <= String.length s)%nat ->
  s = substring 0 k s +:+ substring k (String.length s - k) s.
Proof.
  revert k. induction s as [|c s IH]; intros k Hk.
  - cbn in Hk. by replace k with 0%nat by lia.
  - destruct k as [|k].
    + by rewrite Nat.sub_0_r, substring_all.
    + cbn in Hk. cbn [substring String.length Nat.sub].
      change (String c s = String c (substring 0 k s
                                      +:+ substring k (String.length s - k) s)).
      rewrite <- IH; [done | lia].
Qed.

(** [endswith] holds exactly of the texts that are something followed by
    the suffix. *)
Lemma endswith_iff (s suffix : string) :
  Str.endswith s suffix = true <-> exists stem, s = stem +:+ suffix.
Proof.
  unfold Str.endswith. split.
  - destruct (Nat.leb_spec (String.length suffix) (String.length s)) as [Hle|]; [|done].
    intros Heq%String.eqb_eq.
    exists (substring 0 (String.length s - String.length suffix) s).
    pose proof (substring_split s (String.length s - String.length suffix)) as Hsplit.
    replace (String.length s - (String.length s - String.length suffix))%nat
      with (String.length suffix) in Hsplit by lia.
    rewrite Heq in Hsplit. apply Hsplit. lia.
  - intros [stem ->]. rewrite length_append.
    destruct (Nat.leb_spec (String.length suffix)
                (String.length stem + String.length suffix)) as [_|]; [|lia].
    apply String.eqb_eq.
    replace (String.length stem + String.length suffix - String.length suffix)%nat
      with (String.length stem) by lia.
    by rewrite substring_skip, substring_all.
Qed.

Lemma selects_iff part :
  selects part = inr true
  <-> exists name stem,
        Py.getitem part "filename" = inr (PStr name)
        /\ Str.lower name = stem +:+ ".pdf".
Proof.
  unfold selects. split.
  - destruct part as [| | | | |d]; try done. cbn [Py.get Py.getitem].
    destruct (Py.assoc "filename" d) as [value|]; [|done].
    destruct (Py.truthy value); [|done].
    destruct value as [| | |name| |]; try done. cbn [Py.lower].
    intros [= Hends]. apply endswith_iff in Hends as [stem Hstem].
    by exists name, stem.
  - intros (name & stem & Hname & Hlower).
    destruct part as [| | | | |d]; try done. cbn [Py.get Py.getitem] in *.
    destruct (Py.assoc "filename" d) as [value|]; [|done].
    injection Hname as ->. cbn [Py.lower].
    assert (Py.truthy (PStr name) = true) as ->.
    { destruct name; [by destruct stem|done]. }
    f_equal. apply endswith_iff. by exists stem.
Qed.

(** [X19] The filter selects a part exactly when its filename is a string
    whose lowercase form is some text followed by [.pdf]: the case of the
    letters of the name does not matter, and the extension alone is
    enough.  The filter leaves the world as it is. *)
Theorem filter_selects_pdf_names_in_any_case part w :
  is_pdf_part part w = (inr true, w)
  <-> exists name stem,
        Py.getitem part "filename" = inr (PStr name)
        /\ Str.lower name = stem +:+ ".pdf".
Proof.
  rewrite is_pdf_part_value, <- selects_iff. split; [by intros [= ->] | by intros ->].
Qed.

(** A name in capitals followed by a mixed-case extension is selected, and
    so is the bare extension; a name that only contains [.pdf] is not. *)
Example filter_on_some_names :
  outcome (is_pdf_part (part_of "INVOICE.Pdf" (PStr "a"))) Sample.world0 = inr true
  /\ outcome (is_pdf_part (part_of ".PDF" (PStr "a"))) Sample.world0 = inr true
  /\ outcome (is_pdf_part (part_of "invoice.pdf.zip" (PStr "a"))) Sample.world0
     = inr false
  /\ outcome (is_pdf_part (part_of "pdf" (PStr "a"))) Sample.world0 = inr false
  /\ outcome (is_pdf_part (PDict [("body", PDict [])])) Sample.world0 = inr false.
Proof. repeat split. Qed.
